(** * Omi mentor app: text analysis, notification queue and scheduler

    A shallow embedding of the JavaScript of the repository:
    - [src/utils/mentorUtils.js]: [extractActionItems], [analyzeSentiment],
      [identifyTopics], [generateNotification], [personalizeNotification],
      [calculateOptimalDeliveryTime];
    - the [MentorService] and [NotificationService] classes of README.md.

    Conventions of the embedding.
    - A JavaScript string is a [string]; the character of code [n] stands for
      the code point U+00nn (Basic Latin and Latin-1).
    - A JavaScript number that holds a count, an index or a time in
      milliseconds is a [nat] or a [Z]. A number that holds a fraction, the
      sentiment score, is an IEEE 754 double: the rational [Q] that is its
      value, every arithmetic operation rounding its exact result to the
      nearest double ([JsNumber]). A literal that is no double, such as
      [0.6], stands for the double next to it.
    - [null] and [undefined] are [None]; a call that can throw returns a
      [Completion].
    - [Date.now()] and [new Date()] read a clock: every operation that reads
      it takes the reading as the argument [now] (milliseconds since the
      epoch). [getMinutes] and [setMinutes] work on local time, which they
      read through the [TimeZone] of the host ([JsDate]).
    - [Array.prototype.sort] is a stable sort; with a consistent comparator
      its result is the stable insertion sort [jsSort]. *)

From Stdlib Require Import Bool Arith ZArith QArith Lia List String Ascii.
From Stdlib Require Import Qround Qpower Qabs.
From Stdlib Require Import DecimalString Permutation Sorted Lqa.
Import ListNotations.

Local Open Scope list_scope.
Local Open Scope string_scope.

(** ** JavaScript string primitives *)

Module JsString.

Definition charCode (c : ascii) : nat := nat_of_ascii c.

Definition inRange (lo hi : nat) (c : ascii) : bool :=
  (lo <=? charCode c)%nat && (charCode c <=? hi)%nat.

(** [\w] of a regular expression without the [u] flag: [[A-Za-z0-9_]]. *)
Definition isWordChar (c : ascii) : bool :=
  inRange 65 90 c || inRange 97 122 c || inRange 48 57 c
  || (charCode c =? 95)%nat.

(** [\W]. *)
Definition isNonWordChar (c : ascii) : bool := negb (isWordChar c).

(** White space and line terminators removed by [String.prototype.trim]:
    TAB, LF, VT, FF, CR, SP and NBSP. *)
Definition isWhiteSpace (c : ascii) : bool :=
  inRange 9 13 c || (charCode c =? 32)%nat || (charCode c =? 160)%nat.

(** Letters with a lower-case partner 32 code points above:
    A-Z and U+00C0-U+00DE without the multiplication sign U+00D7. *)
Definition hasLower (c : ascii) : bool :=
  inRange 65 90 c || (inRange 192 222 c && negb (charCode c =? 215)%nat).

Definition lowerChar (c : ascii) : ascii :=
  if hasLower c then ascii_of_nat (charCode c + 32) else c.

(** [s.toLowerCase()]. *)
Fixpoint toLowerCase (s : string) : string :=
  match s with
  | EmptyString => EmptyString
  | String c s' => String (lowerChar c) (toLowerCase s')
  end.

(** Equality of two characters under the [i] flag: both are canonicalised
    by case folding. *)
Definition eqCharCI (a b : ascii) : bool :=
  Ascii.eqb (lowerChar a) (lowerChar b).

(** [s.trimStart()], [s.trimEnd()] and [s.trim()]. *)
Fixpoint trimStart (s : string) : string :=
  match s with
  | EmptyString => EmptyString
  | String c s' => if isWhiteSpace c then trimStart s' else s
  end.

Fixpoint trimEnd (s : string) : string :=
  match s with
  | EmptyString => EmptyString
  | String c s' =>
      match trimEnd s' with
      | EmptyString => if isWhiteSpace c then EmptyString
                       else String c EmptyString
      | r => String c r
      end
  end.

Definition trim (s : string) : string := trimEnd (trimStart s).

(** [s.startsWith(p)]. *)
Fixpoint startsWith (p s : string) : bool :=
  match p, s with
  | EmptyString, _ => true
  | String _ _, EmptyString => false
  | String a p', String b s' => Ascii.eqb a b && startsWith p' s'
  end.

(** [s.includes(p)]: [p] occurs in [s] as a substring. *)
Fixpoint includes (s p : string) : bool :=
  startsWith p s
  || match s with
     | EmptyString => false
     | String _ s' => includes s' p
     end.

(** The literal [p] matches at the start of [s] under the [i] flag; the
    result is what follows the match. *)
Fixpoint matchPrefixCI (p s : string) : option string :=
  match p, s with
  | EmptyString, _ => Some s
  | String _ _, EmptyString => None
  | String a p', String b s' =>
      if eqCharCI a b then matchPrefixCI p' s' else None
  end.

Definition headIs (f : ascii -> bool) (s : string) : bool :=
  match s with
  | EmptyString => false
  | String c _ => f c
  end.

(** [s.split(/[C]+/)] for a character class [C] given by [sep]: the pieces
    between the maximal runs of separator characters; a run at the very
    start or end leaves an empty piece there. The pattern cannot match the
    empty string, so the empty string splits into one empty piece. *)
Fixpoint splitRuns (sep : ascii -> bool) (s : string) : list string :=
  match s with
  | EmptyString => [EmptyString]
  | String c s' =>
      let r := splitRuns sep s' in
      if sep c then
        if headIs sep s' then r else EmptyString :: r
      else
        match r with
        | [] => [String c EmptyString]
        | piece :: rest => String c piece :: rest
        end
  end.

(** [list.includes(s)] on an array of strings. *)
Definition arrayIncludes (l : list string) (s : string) : bool :=
  existsb (String.eqb s) l.

(** [s.replace(/^(p1|p2|...)/i, '')]: the alternatives are tried in order
    at position 0 and the first that matches is removed. *)
Fixpoint removeLeadingAlt (alts : list string) (s : string) : string :=
  match alts with
  | [] => s
  | p :: alts' =>
      match matchPrefixCI p s with
      | Some rest => rest
      | None => removeLeadingAlt alts' s
      end
  end.

(** The last character of the literal [p] once matched, as a word
    character or not; [prev] when [p] is empty. *)
Fixpoint lastIsWord (prev : bool) (matched : string) : bool :=
  match matched with
  | EmptyString => prev
  | String c m' => lastIsWord (isWordChar c) m'
  end.

(** [/\bkw\b/i] matches at the start of [s], where [prevWord] tells
    whether the character before [s] is a word character ([false] at the
    start of the text). [\b] holds where exactly one side is a word
    character. *)
Definition matchWordAt (kw : string) (prevWord : bool) (s : string) : bool :=
  xorb prevWord (headIs isWordChar s)
  && match matchPrefixCI kw s with
     | Some rest =>
         xorb (lastIsWord prevWord (substring 0 (length kw) s))
              (headIs isWordChar rest)
     | None => false
     end.

(** Number of matches of [s.match(new RegExp(`\\b${kw}\\b`, 'gi'))]: the
    text is scanned from left to right; after a match the scan resumes
    behind it ([skip] counts the characters of the match still to pass),
    otherwise one character further. *)
Fixpoint countWordMatches (kw : string) (prevWord : bool) (skip : nat)
         (s : string) : nat :=
  match s with
  | EmptyString => 0
  | String c s' =>
      match skip with
      | S k => countWordMatches kw (isWordChar c) k s'
      | O =>
          if matchWordAt kw prevWord s
          then S (countWordMatches kw (isWordChar c) (length kw - 1) s')
          else countWordMatches kw (isWordChar c) 0 s'
      end
  end.

End JsString.

(** ** JavaScript numbers

    The finite IEEE 754 binary64 numbers, each given by its value. The
    results of the operations below stay far inside the range of the
    doubles, so that the infinities and NaN are left out. *)

Module JsNumber.

(** The integer nearest to [x], the even one of two that are equally
    near. *)
Definition roundHalfEven (x : Q) : Z :=
  let f := Qfloor x in
  match (x - inject_Z f ?= 1 # 2)%Q with
  | Lt => f
  | Gt => (f + 1)%Z
  | Eq => if Z.even f then f else (f + 1)%Z
  end.

(** For [x > 0], the exponent [e] with [2 ^ e <= x < 2 ^ (e + 1)]. *)
Definition floorLog2 (x : Q) : Z :=
  let e := (Z.log2 (Qnum x) - Z.log2 (Zpos (Qden x)))%Z in
  if Qle_bool (2 ^ e) x then e else (e - 1)%Z.

(** The exponent of the unit in the last place of the doubles around
    [x]: 53 significant bits, and no exponent below that of the subnormal
    numbers. *)
Definition quantum (x : Q) : Z := Z.max (floorLog2 (Qabs x) - 52) (-1074).

(** Round to nearest, ties to even: the double that an operation with the
    exact result [x] returns. *)
Definition roundToDouble (x : Q) : Q :=
  if Qeq_bool x 0 then 0%Q
  else
    let q := quantum x in
    Qred (inject_Z (roundHalfEven (x / 2 ^ q)) * 2 ^ q).

(** A numeric literal. *)
Definition number (literal : Q) : Q := roundToDouble literal.

(** [x + y], [x - y], [x * y] and [x / y]. *)
Definition add (x y : Q) : Q := roundToDouble (x + y).
Definition sub (x y : Q) : Q := roundToDouble (x - y).
Definition mul (x y : Q) : Q := roundToDouble (x * y).
Definition div (x y : Q) : Q := roundToDouble (x / y).

(** *** Number::toString on integers *)

(** The decimal digits of a natural number. *)
Definition decimal (z : Z) : string :=
  NilZero.string_of_uint (N.to_uint (Z.to_N z)).

(** The double nearest to an integer, an integer itself. *)
Definition integerToDouble (z : Z) : Z := Qfloor (roundToDouble (inject_Z z)).

Definition readsBackAs (v c : Z) : bool := (integerToDouble c =? v)%Z.

(** The decimal with the fewest significant digits that reads back as the
    double [v > 0]; of two such, the one nearer to [v], and the one with
    the even last digit if they are equally near. The two multiples of
    [10 ^ j] around [v] are tried from the coarsest [j] down. *)
Fixpoint shortestDecimal (v : Z) (j : nat) : Z :=
  match j with
  | O => v
  | S j' =>
      let step := (10 ^ Z.of_nat j)%Z in
      let lo := (v / step * step)%Z in
      let hi := (lo + step)%Z in
      let okLo := (0 <? lo)%Z && readsBackAs v lo in
      let okHi := readsBackAs v hi in
      if okLo && okHi then
        match (v - lo ?= hi - v)%Z with
        | Lt => lo
        | Gt => hi
        | Eq => if Z.even (v / step) then lo else hi
        end
      else if okLo then lo
      else if okHi then hi
      else shortestDecimal v j'
  end.

Fixpoint dropTrailingZeros (s : string) : string :=
  match s with
  | EmptyString => EmptyString
  | String c s' =>
      match dropTrailingZeros s' with
      | EmptyString => if Ascii.eqb c "0" then EmptyString
                       else String c EmptyString
      | r => String c r
      end
  end.

(** The digits of a positive integer double: all of them up to 21 digits,
    the exponent form [d.ddde+n] beyond. *)
Definition positiveToString (v : Z) : string :=
  let digits := decimal (shortestDecimal v (String.length (decimal v))) in
  let n := String.length digits in
  if (n <=? 21)%nat then digits
  else
    match dropTrailingZeros digits with
    | EmptyString => digits
    | String d EmptyString =>
        String d ("e+" ++ decimal (Z.of_nat (n - 1)))
    | String d rest =>
        String d ("." ++ rest ++ "e+" ++ decimal (Z.of_nat (n - 1)))
    end.

(** [String(x)], and [x] in a template literal, for the number that the
    integer [z] denotes. *)
Definition toString (z : Z) : string :=
  let v := integerToDouble z in
  match v with
  | Z0 => "0"
  | Zpos _ => positiveToString v
  | Zneg _ => "-" ++ positiveToString (- v)
  end.

End JsNumber.

(** ** JavaScript dates

    A [Date] is its time value, the milliseconds since the epoch in UTC;
    time values are taken inside the range of [Date]. *)

Module JsDate.

(** The time zone of the host, as ECMAScript reads it: the offset of local
    time from UTC in milliseconds, in force at a UTC time
    ([LocalTZA(t, true)]) and at a local wall-clock time
    ([LocalTZA(t, false)]). *)
Record TimeZone : Type := mkTimeZone {
  offsetAtUTC : Z -> Z;
  offsetAtLocal : Z -> Z
}.

(** A zone whose offset never changes; [fixedOffset 0] is UTC. *)
Definition fixedOffset (offset : Z) : TimeZone :=
  mkTimeZone (fun _ => offset) (fun _ => offset).

Definition msPerMinute : Z := 60000.

(** [LocalTime(t)]. *)
Definition localTime (tz : TimeZone) (t : Z) : Z := (t + offsetAtUTC tz t)%Z.

(** [UTC(t)]. *)
Definition utc (tz : TimeZone) (local : Z) : Z :=
  (local - offsetAtLocal tz local)%Z.

(** [MinFromTime(t)]. *)
Definition minFromTime (t : Z) : Z := ((t / msPerMinute) mod 60)%Z.

(** [date.getMinutes()]. *)
Definition getMinutes (tz : TimeZone) (date : Z) : Z :=
  minFromTime (localTime tz date).

(** [date.setMinutes(min)], the new time value: the minutes field of the
    local time is replaced, day, hour, seconds and milliseconds are kept,
    and the result is read back as a local time. *)
Definition setMinutes (tz : TimeZone) (date : Z) (min : Z) : Z :=
  let local := localTime tz date in
  utc tz (local - minFromTime local * msPerMinute + min * msPerMinute)%Z.

End JsDate.

(** ** Array.prototype.sort *)

Section JsSort.

Context {A : Type}.
Variable cmp : A -> A -> Z.

(** [x] goes before the first element it does not have to follow. *)
Fixpoint insertSorted (x : A) (l : list A) : list A :=
  match l with
  | [] => [x]
  | y :: l' => if (cmp x y <=? 0)%Z then x :: l
               else y :: insertSorted x l'
  end.

Fixpoint jsSort (l : list A) : list A :=
  match l with
  | [] => []
  | x :: l' => insertSorted x (jsSort l')
  end.

(** The comparator lets [a] stand before [b]. *)
Definition cmpLe (a b : A) : Prop := (cmp a b <= 0)%Z.

End JsSort.

(** ** Priorities *)

(** The three values of the field [priority]: ['high'], ['medium'], ['low']. *)
Inductive Priority : Type := high | medium | low.

(** ** Completions *)

(** The outcome of a call that can throw: the value it returns, or the
    name of the error it throws. *)
Inductive Completion (A : Type) : Type :=
| Returns (value : A)
| Throws (error : string).

Arguments Returns {A} value.
Arguments Throws {A} error.

(** ** src/utils/mentorUtils.js: the text analyzer *)

Module MentorUtils.

Import JsString.

Definition actionPhrases : list string :=
  [ "need to"; "have to"; "should"; "will"; "going to";
    "must"; "plan to"; "want to"; "intend to" ].

(** The alternatives of [/^(um|uh|so|like|well|i mean|you know|basically)/i]. *)
Definition fillerWords : list string :=
  [ "um"; "uh"; "so"; "like"; "well"; "i mean"; "you know"; "basically" ].

(** The class [[.!?]]. *)
Definition isSentenceEnd (c : ascii) : bool :=
  Ascii.eqb c "." || Ascii.eqb c "!" || Ascii.eqb c "?".

(** The inner loop of [extractActionItems] over the phrases, for one
    sentence: at the first phrase the sentence contains, the sentence is
    cleaned and pushed if long enough and new, and the loop breaks. *)
Fixpoint scanPhrases (phrases : list string) (sentence : string)
         (actionItems : list string) : list string :=
  match phrases with
  | [] => actionItems
  | phrase :: phrases' =>
      if includes (toLowerCase sentence) phrase then
        let actionItem := trim sentence in
        let actionItem := trim (removeLeadingAlt fillerWords actionItem) in
        if (10 <? length actionItem)%nat
           && negb (arrayIncludes actionItems actionItem)
        then (actionItems ++ [actionItem])%list
        else actionItems
      else scanPhrases phrases' sentence actionItems
  end.

Definition extractActionItems (text : option string) : list string :=
  match text with
  | None | Some EmptyString => []
  | Some text =>
      let sentences :=
        filter (fun s => (0 <? length (trim s))%nat)
               (splitRuns isSentenceEnd text) in
      fold_left (fun actionItems sentence =>
                   scanPhrases actionPhrases sentence actionItems)
                sentences []
  end.

Definition positiveWords : list string :=
  [ "good"; "great"; "excellent"; "amazing"; "wonderful"; "fantastic";
    "happy"; "excited"; "pleased"; "love"; "enjoy"; "positive"; "success";
    "achievement"; "accomplished"; "proud"; "delighted"; "perfect" ].

Definition negativeWords : list string :=
  [ "bad"; "terrible"; "awful"; "horrible"; "poor"; "disappointing";
    "sad"; "angry"; "upset"; "hate"; "dislike"; "negative"; "failure";
    "problem"; "issue"; "trouble"; "difficult"; "frustrated"; "annoyed" ].

Record Sentiment : Type := mkSentiment { score : Q; label : string }.

(** [text.toLowerCase().split(/\W+/)]. *)
Definition tokens (text : string) : list string :=
  splitRuns isNonWordChar (toLowerCase text).

(** The counting loop: one increment per word found in [keywords]. *)
Fixpoint countHits (keywords : list string) (words : list string) : nat :=
  match words with
  | [] => 0
  | word :: words' =>
      if arrayIncludes keywords word then S (countHits keywords words')
      else countHits keywords words'
  end.

Definition ofNat (n : nat) : Q := inject_Z (Z.of_nat n).

(** [Math.max] and [Math.min] on two numbers. *)
Definition mathMax (a b : Q) : Q := if Qle_bool a b then b else a.
Definition mathMin (a b : Q) : Q := if Qle_bool a b then a else b.

(** The literals 0, 0.25, 0.5, 0.75, 1 and 2.5 are doubles; 0.6 and 0.4
    are not, and the comparisons are with the doubles next to them. *)
Definition analyzeSentiment (text : option string) : Sentiment :=
  match text with
  | None | Some EmptyString => mkSentiment 0.5 "neutral"
  | Some text =>
      let words := tokens text in
      let positiveCount := countHits positiveWords words in
      let negativeCount := countHits negativeWords words in
      let totalWords := List.length words in
      let positiveScore :=
        if (0 <? totalWords)%nat
        then JsNumber.div (ofNat positiveCount) (ofNat totalWords)
        else 0%Q in
      let negativeScore :=
        if (0 <? totalWords)%nat
        then JsNumber.div (ofNat negativeCount) (ofNat totalWords)
        else 0%Q in
      let score :=
        if (0 <? positiveCount)%nat || (0 <? negativeCount)%nat
        then mathMax 0
               (mathMin 1
                  (JsNumber.add 0.5
                     (JsNumber.mul
                        (JsNumber.sub positiveScore negativeScore) 2.5)))
        else 0.5%Q in
      let label :=
        if Qle_bool 0.75 score then "very positive"
        else if Qle_bool (JsNumber.number 0.6) score then "positive"
        else if Qle_bool (JsNumber.number 0.4) score then "neutral"
        else if Qle_bool 0.25 score then "negative"
        else "very negative" in
      mkSentiment score label
  end.

(** The object [topicKeywords], its keys in declaration order. *)
Definition topicKeywords : list (string * list string) :=
  [ ("work", [ "job"; "work"; "project"; "task"; "deadline"; "meeting";
               "client"; "boss"; "colleague" ]);
    ("health", [ "health"; "exercise"; "workout"; "gym"; "run"; "sleep";
                 "diet"; "food"; "stress"; "tired" ]);
    ("productivity", [ "productive"; "efficiency"; "focus"; "distraction";
                       "procrastination"; "time management"; "priority" ]);
    ("learning", [ "learn"; "study"; "course"; "book"; "read"; "knowledge";
                   "skill"; "training" ]);
    ("social", [ "friend"; "family"; "relationship"; "social"; "party";
                 "meet"; "talk"; "conversation" ]);
    ("finance", [ "money"; "finance"; "budget"; "expense"; "cost"; "save";
                  "invest"; "purchase"; "buy" ]);
    ("technology", [ "tech"; "computer"; "software"; "app"; "device";
                     "phone"; "digital"; "online"; "internet" ]);
    ("travel", [ "travel"; "trip"; "vacation"; "visit"; "flight"; "hotel";
                 "destination"; "journey" ]);
    ("creativity", [ "creative"; "design"; "art"; "write"; "create"; "idea";
                     "inspiration"; "project" ]);
    ("wellbeing", [ "wellbeing"; "happiness"; "mood"; "emotion"; "feel";
                    "mental"; "meditation"; "mindfulness" ]) ].

(** The inner loop over the keywords of one topic. *)
Definition topicScore (lowerText : string) (keywords : list string) : nat :=
  fold_left (fun acc keyword =>
               (acc + countWordMatches keyword false 0 lowerText)%nat)
            keywords 0%nat.

(** [Object.entries(topicScores)]. *)
Definition topicScores (lowerText : string) : list (string * nat) :=
  map (fun entry => (fst entry, topicScore lowerText (snd entry)))
      topicKeywords.

(** The comparator [([_, scoreA], [__, scoreB]) => scoreB - scoreA]. *)
Definition byScoreDesc (a b : string * nat) : Z :=
  (Z.of_nat (snd b) - Z.of_nat (snd a))%Z.

Definition identifyTopics (text : option string) (maxTopics : nat)
  : list string :=
  match text with
  | None | Some EmptyString => []
  | Some text =>
      let lowerText := toLowerCase text in
      firstn maxTopics
        (map fst
           (jsSort byScoreDesc
              (filter (fun entry => (0 <? snd entry)%nat)
                      (topicScores lowerText))))
  end.

(** The default value of the parameter [maxTopics]. *)
Definition defaultMaxTopics : nat := 3.

(** *** The notification factory *)

(** The fields of an insight that [generateNotification] reads. [type] is
    the empty string when absent; [participants] is [None] when the insight
    has no such array; the other texts are strings and the numbers
    integers. *)
Record Insight : Type := mkInsight {
  insightType : string;
  content : string;
  urgency : option Priority;
  participants : option (list string);
  timeUntil : Z;
  context : option string;
  focusState : string;
  duration : Z;
  suggestion : string;
  topic : string
}.

Record UserProfile : Type := mkUserProfile {
  mentorStyle : option string
}.

Record Notification : Type := mkNotification {
  id : string;
  timestamp : Z;
  read : bool;
  priority : Priority;
  title : string;
  message : string
}.

(** A number in a template literal. *)
Definition numberToString (z : Z) : string := JsNumber.toString z.

(** [parts.join(', ')]. *)
Fixpoint join (sep : string) (parts : list string) : string :=
  match parts with
  | [] => ""
  | [part] => part
  | part :: parts' => part ++ sep ++ join sep parts'
  end.

Definition setMessage (m : string) (n : Notification) : Notification :=
  mkNotification (id n) (timestamp n) (read n) (priority n) (title n) m.

Definition personalizeNotification (notification : Notification)
           (mentorStyle : string) : Notification :=
  let style := toLowerCase mentorStyle in
  if String.eqb style "supportive coach" then
    setMessage (message notification ++ " You're doing great!") notification
  else if String.eqb style "direct advisor" then notification
  else if String.eqb style "analytical guide" then
    setMessage ("Analysis: " ++ message notification) notification
  else if String.eqb style "friendly companion" then
    setMessage ("Hey there! " ++ message notification) notification
  else if String.eqb style "productivity expert" then
    setMessage ("For optimal productivity: " ++ message notification)
               notification
  else notification.

(** The [switch] on the lower-cased type: the notification with its title,
    message and priority. [insight.participants.join] throws a [TypeError]
    when the insight has no participants. *)
Definition notificationContent (now : Z) (insight : Insight)
  : Completion Notification :=
  let base := mkNotification ("notif-" ++ numberToString now) now false in
  let kind := toLowerCase (insightType insight) in
  if String.eqb kind "action_item" then
    Returns
      (base (match urgency insight with Some u => u | None => medium end)
            "Action Item Reminder"
            ("Don't forget: " ++ content insight))
  else if String.eqb kind "meeting_prep" then
    match participants insight with
    | Some participants =>
        Returns
          (base high "Meeting Preparation"
                ("You have a meeting with "
                   ++ join ", " participants ++ " in "
                   ++ numberToString (timeUntil insight) ++ " minutes. "
                   ++ match context insight with
                      | Some c => c
                      | None => ""
                      end))
    | None => Throws "TypeError"
    end
  else if String.eqb kind "focus_time" then
    Returns
      (base medium "Focus Time Analysis"
            ("You've been " ++ focusState insight ++ " for "
               ++ numberToString (duration insight) ++ " minutes. "
               ++ suggestion insight))
  else if String.eqb kind "wellbeing" then
    Returns (base medium "Wellbeing Check" (content insight))
  else if String.eqb kind "learning" then
    Returns
      (base low "Learning Opportunity"
            ("Based on your conversations about " ++ topic insight
               ++ ", you might be interested in "
               ++ suggestion insight ++ "."))
  else if String.eqb kind "social" then
    Returns (base low "Social Insight" (content insight))
  else
    Returns (base medium "Mentor Insight" (content insight)).

Definition generateNotification (now : Z) (userProfile : option UserProfile)
           (insight : option Insight) : Completion (option Notification) :=
  match insight with
  | None => Returns None
  | Some insight =>
      if String.eqb (insightType insight) "" then Returns None
      else
        match notificationContent now insight with
        | Throws error => Throws error
        | Returns notification =>
            match userProfile with
            | Some profile =>
                match mentorStyle profile with
                | Some style =>
                    if String.eqb style "" then Returns (Some notification)
                    else Returns (Some (personalizeNotification notification
                                                                style))
                | None => Returns (Some notification)
                end
            | None => Returns (Some notification)
            end
        end
  end.

(** *** The delivery-time policy *)

Definition calculateOptimalDeliveryTime (tz : JsDate.TimeZone) (now : Z)
           (userProfile : option UserProfile)
           (notification : option Notification) : Z :=
  match userProfile, notification with
  | Some _, Some notification =>
      match priority notification with
      | high => now
      | medium => JsDate.setMinutes tz now (JsDate.getMinutes tz now + 5)
      | low => JsDate.setMinutes tz now (JsDate.getMinutes tz now + 30)
      end
  | _, _ => now
  end.

(** *** Context extraction *)

(** The fields of the conversation data that the extractors read. *)
Record ConversationData : Type := mkConversationData {
  conversationParticipants : option (list string);
  conversationSentiment : option Sentiment
}.

Record Context : Type := mkContext {
  location : list string;
  timeReferences : list string;
  people : list string;
  emotions : option (list string)
}.

Definition extractLocation (conversationData : option ConversationData)
  : list string := [].

Definition extractTimeReferences (conversationData : option ConversationData)
  : list string := [].

Definition extractPeople (conversationData : option ConversationData)
  : list string :=
  match conversationData with
  | Some data =>
      match conversationParticipants data with
      | Some participants =>
          filter (fun p => negb (String.eqb p "You")) participants
      | None => []
      end
  | None => []
  end.

(** The object [sentimentToEmotions]. *)
Definition sentimentToEmotions : list (string * list string) :=
  [ ("very positive", [ "happy"; "excited"; "enthusiastic" ]);
    ("positive", [ "content"; "pleased"; "satisfied" ]);
    ("neutral", [ "calm"; "balanced" ]);
    ("negative", [ "frustrated"; "disappointed"; "concerned" ]);
    ("very negative", [ "angry"; "upset"; "stressed" ]) ].

(** The property names every object literal inherits from
    [Object.prototype]: reading one of them from [sentimentToEmotions]
    gives the inherited value, which is truthy and not a list. *)
Definition objectPrototypeKeys : list string :=
  [ "constructor"; "hasOwnProperty"; "isPrototypeOf";
    "propertyIsEnumerable"; "toLocaleString"; "toString"; "valueOf";
    "__proto__"; "__defineGetter__"; "__defineSetter__";
    "__lookupGetter__"; "__lookupSetter__" ].

Fixpoint ownProperty {V : Type} (object : list (string * V)) (key : string)
  : option V :=
  match object with
  | [] => None
  | (k, v) :: object' =>
      if String.eqb k key then Some v else ownProperty object' key
  end.

(** [sentimentToEmotions[label] || []]: the list under an own key, the
    empty list for a key that is not there, and [None] for what is not a
    list of emotions, the value inherited under a key of
    [Object.prototype]. *)
Definition extractEmotions (conversationData : option ConversationData)
  : option (list string) :=
  match conversationData with
  | Some data =>
      match conversationSentiment data with
      | Some sentiment =>
          match ownProperty sentimentToEmotions (label sentiment) with
          | Some emotions => Some emotions
          | None =>
              if arrayIncludes objectPrototypeKeys (label sentiment)
              then None
              else Some []
          end
      | None => Some []
      end
  | None => Some []
  end.

(** [extractContext]; the empty object [{}] is [None]. *)
Definition extractContext (conversationData : option ConversationData)
  : option Context :=
  match conversationData with
  | None => None
  | Some _ =>
      Some (mkContext (extractLocation conversationData)
                      (extractTimeReferences conversationData)
                      (extractPeople conversationData)
                      (extractEmotions conversationData))
  end.

End MentorUtils.

(** ** README.md: the class MentorService *)

Module MentorService.

(** A queued notification. The objects [generateNotifications] builds have
    no [id] property: reading it gives [undefined], which is [None]. *)
Record Notification : Type := mkNotification {
  id : option string;
  type : string;
  title : string;
  message : string;
  priority : Priority;
  triggerTime : Z
}.

(** The processed conversation data handed to [updateUserProfile]. *)
Record ConversationData : Type := mkConversationData {
  text : string;
  dataTopics : list string;
  dataSentiment : option MentorUtils.Sentiment
}.

Record Insights : Type := mkInsights {
  topics : list string;
  sentiment : option MentorUtils.Sentiment;
  actionItems : option (list string);
  questions : list string
}.

Record HistoryEntry : Type := mkHistoryEntry {
  timestamp : Z;
  data : ConversationData;
  insights : Insights
}.

(** The fields of the class. [userProfile] starts as the empty object
    ([None]); every update spreads the four keys of the new insights over
    it. *)
Record Service : Type := mkService {
  userProfile : option Insights;
  conversationHistory : list HistoryEntry;
  notificationQueue : list Notification
}.

Definition constructor : Service := mkService None [] [].

(** The helper functions below the class. *)
Definition extractActionItems (conversationData : ConversationData)
  : list string := [].

Definition extractQuestions (conversationData : ConversationData)
  : list string := [].

Definition calculatePriority (actionItem : string) : Priority := medium.

Definition calculateOptimalTriggerTime (now : Z) (actionItem : string) : Z :=
  (now + 60 * 60 * 1000)%Z.

Definition generateEncouragementMessage (insights : Insights) : string :=
  "I noticed you might be feeling down. Remember, challenges are opportunities for growth!".

(** [priorityOrder = { high: 0, medium: 1, low: 2 }]. *)
Definition priorityOrder (p : Priority) : Z :=
  match p with
  | high => 0
  | medium => 1
  | low => 2
  end.

(** The comparator of [sortNotificationQueue]. *)
Definition compareNotifications (a b : Notification) : Z :=
  let priorityDiff :=
    (priorityOrder (priority a) - priorityOrder (priority b))%Z in
  if negb (priorityDiff =? 0)%Z then priorityDiff
  else (triggerTime a - triggerTime b)%Z.

Definition setQueue (q : list Notification) (s : Service) : Service :=
  mkService (userProfile s) (conversationHistory s) q.

Definition sortNotificationQueue (s : Service) : Service :=
  setQueue (jsSort compareNotifications (notificationQueue s)) s.

Definition queueNotification (notification : Notification) (s : Service)
  : Service :=
  sortNotificationQueue
    (setQueue (notificationQueue s ++ [notification])%list s).

Definition actionReminder (now : Z) (item : string) : Notification :=
  mkNotification None "action_reminder" "Action Item Reminder"
                 ("Don't forget to: " ++ item)
                 (calculatePriority item)
                 (calculateOptimalTriggerTime now item).

Definition encouragement (now : Z) (insights : Insights) : Notification :=
  mkNotification None "encouragement" "A little encouragement"
                 (generateEncouragementMessage insights)
                 medium
                 (now + 15 * 60 * 1000)%Z.

(** [score < 0.3], a comparison of doubles. *)
Definition scoreBelow (s : MentorUtils.Sentiment) : bool :=
  negb (Qle_bool (JsNumber.number 0.3) (MentorUtils.score s)).

Definition generateNotifications (now : Z) (insights : Insights)
           (s : Service) : Service :=
  let s1 :=
    match actionItems insights with
    | Some items =>
        if (0 <? List.length items)%nat then
          fold_left (fun st item => queueNotification (actionReminder now item) st)
                    items s
        else s
    | None => s
    end in
  match sentiment insights with
  | Some sent =>
      if scoreBelow sent
      then queueNotification (encouragement now insights) s1
      else s1
  | None => s1
  end.

Definition extractInsights (conversationData : ConversationData) : Insights :=
  mkInsights (dataTopics conversationData)
             (dataSentiment conversationData)
             (Some (extractActionItems conversationData))
             (extractQuestions conversationData).

Definition updateUserProfile (now : Z) (conversationData : ConversationData)
           (s : Service) : Service :=
  let insights := extractInsights conversationData in
  let s1 :=
    mkService (Some insights)
              (conversationHistory s
                 ++ [mkHistoryEntry now conversationData insights])%list
              (notificationQueue s) in
  generateNotifications now insights s1.

Definition getPendingNotifications (now : Z) (s : Service)
  : list Notification :=
  filter (fun notification => (triggerTime notification <=? now)%Z)
         (notificationQueue s).

(** Equality of two ids as [Array.prototype.includes] compares them:
    [undefined] equals [undefined], strings are compared by content. *)
Definition sameId (a b : option string) : bool :=
  match a, b with
  | None, None => true
  | Some x, Some y => String.eqb x y
  | _, _ => false
  end.

Definition idsInclude (notificationIds : list (option string))
           (i : option string) : bool :=
  existsb (sameId i) notificationIds.

Definition markNotificationsAsSent (notificationIds : list (option string))
           (s : Service) : Service :=
  setQueue
    (filter (fun notification =>
               negb (idsInclude notificationIds (id notification)))
            (notificationQueue s))
    s.

(** The public operations of the store, and the states they reach from a
    freshly constructed service. *)
Inductive Op : Type :=
| OpUpdateUserProfile (now : Z) (conversationData : ConversationData)
| OpGenerateNotifications (now : Z) (insights : Insights)
| OpQueueNotification (notification : Notification)
| OpMarkNotificationsAsSent (notificationIds : list (option string)).

Definition step (s : Service) (op : Op) : Service :=
  match op with
  | OpUpdateUserProfile now d => updateUserProfile now d s
  | OpGenerateNotifications now i => generateNotifications now i s
  | OpQueueNotification n => queueNotification n s
  | OpMarkNotificationsAsSent ids => markNotificationsAsSent ids s
  end.

Definition run (ops : list Op) : Service := fold_left step ops constructor.

End MentorService.

(** ** README.md: the class NotificationService *)

Module NotificationService.

(** The interval timers of the host. A handle is a positive integer:
    [setInterval] hands out 1, 2, 3, ... and registers the callback under
    the handle; [clearInterval] unregisters that one handle. Every
    registered handle fires its callback once per period until it is
    cleared. *)
Record Timers : Type := mkTimers {
  nextHandle : positive;
  activeIntervals : list positive
}.

Definition noTimers : Timers := mkTimers 1 [].

Definition setInterval (t : Timers) : positive * Timers :=
  (nextHandle t,
   mkTimers (Pos.succ (nextHandle t))
            (activeIntervals t ++ [nextHandle t])%list).

Definition clearInterval (handle : positive) (t : Timers) : Timers :=
  mkTimers (nextHandle t)
           (filter (fun h => negb (h =? handle)%positive)
                   (activeIntervals t)).

(** The service object with the environment its methods act on: the
    mentor service it was constructed with and the timers of the host.
    [notificationInterval] is [null] ([None]) or a handle. *)
Record Service : Type := mkService {
  mentorService : MentorService.Service;
  notificationInterval : option positive;
  timers : Timers
}.

Definition constructor (mentorService : MentorService.Service) : Service :=
  mkService mentorService None noTimers.

Definition start (s : Service) : Service :=
  let (handle, timers') := setInterval (timers s) in
  mkService (mentorService s) (Some handle) timers'.

(** [if (this.notificationInterval)]: [null] is falsy, a handle, being
    positive, is truthy. *)
Definition stop (s : Service) : Service :=
  match notificationInterval s with
  | Some handle =>
      mkService (mentorService s) None (clearInterval handle (timers s))
  | None => s
  end.

(** The two states of the scheduler, read off [notificationInterval]:
    Running with a handle, Stopped with [null]. *)
Definition isRunning (s : Service) : bool :=
  match notificationInterval s with
  | Some _ => true
  | None => false
  end.

(** What a tick does that can be observed from outside. *)
Inductive Event : Type :=
| Dispatch (notification : MentorService.Notification) (resolved : bool)
| MarkSent (notificationIds : list (option string)).

Section Tick.

(** The delivery channel behind [sendNotification]: a state of its own,
    and for each notification whether the promise resolves ([true]) or
    rejects ([false]). *)
Variable Channel : Type.
Variable sendNotification :
  Channel -> MentorService.Notification -> Channel * bool.

(** The [for ... of] loop with its [try]/[catch]. *)
Fixpoint sendLoop (pendingNotifications : list MentorService.Notification)
         (channel : Channel) (sentNotificationIds : list (option string))
         (log : list Event)
  : Channel * list (option string) * list Event :=
  match pendingNotifications with
  | [] => (channel, sentNotificationIds, log)
  | notification :: rest =>
      let (channel', resolved) := sendNotification channel notification in
      sendLoop rest channel'
               (if resolved
                then (sentNotificationIds
                        ++ [MentorService.id notification])%list
                else sentNotificationIds)
               (log ++ [Dispatch notification resolved])%list
  end.

Definition checkAndSendNotifications (now : Z)
           (mentorService : MentorService.Service) (channel : Channel)
  : MentorService.Service * Channel * list Event :=
  let pendingNotifications :=
    MentorService.getPendingNotifications now mentorService in
  if (List.length pendingNotifications =? 0)%nat
  then (mentorService, channel, [])
  else
    let '(channel', sentNotificationIds, log) :=
      sendLoop pendingNotifications channel [] [] in
    (MentorService.markNotificationsAsSent sentNotificationIds
                                           mentorService,
     channel',
     (log ++ [MarkSent sentNotificationIds])%list).

End Tick.

End NotificationService.

(** ** src/services/omiService.js: the class OmiService *)

Module OmiService.

Record Listener : Type := mkListener {
  listenerId : string;
  intervalId : positive
}.

(** The fields of the class, with the interval timers of the host. *)
Record Service : Type := mkService {
  isConnected : bool;
  deviceId : option string;
  listeners : list Listener;
  timers : NotificationService.Timers
}.

Definition constructor : Service :=
  mkService false None [] NotificationService.noTimers.

(** The object [connectToDevice] resolves to. *)
Record ConnectionResult : Type := mkConnectionResult {
  success : bool;
  resultDeviceId : string;
  resultMessage : string
}.

Definition connectToDevice (device : string) (s : Service)
  : Service * ConnectionResult :=
  (mkService true (Some device) (listeners s) (timers s),
   mkConnectionResult true device "Successfully connected to Omi device").

Definition disconnect (s : Service) : Service * bool :=
  if negb (isConnected s) then (s, true)
  else (mkService false None (listeners s) (timers s), true).

(** [subscribeToConversations]: the new state and what the [remove] of the
    returned subscription closes over, the listener id, or nothing for the
    subscription handed out while no device is connected. *)
Definition subscribeToConversations (now : Z) (s : Service)
  : Service * option string :=
  if negb (isConnected s) then (s, None)
  else
    let (interval, timers') := NotificationService.setInterval (timers s) in
    let id := MentorUtils.numberToString now in
    (mkService (isConnected s) (deviceId s)
               (listeners s ++ [mkListener id interval])%list
               timers',
     Some id).

(** [listeners.findIndex(listener => listener.id === listenerId)], with
    [None] for -1. *)
Fixpoint findIndex (id : string) (ls : list Listener) : option nat :=
  match ls with
  | [] => None
  | l :: ls' =>
      if String.eqb (listenerId l) id then Some 0%nat
      else match findIndex id ls' with
           | Some i => Some (S i)
           | None => None
           end
  end.

(** [listeners.splice(index, 1)]. *)
Definition splice1 (index : nat) (ls : list Listener) : list Listener :=
  (firstn index ls ++ skipn (S index) ls)%list.

Definition removeListener (id : string) (s : Service) : Service :=
  match findIndex id (listeners s) with
  | Some index =>
      match nth_error (listeners s) index with
      | Some l =>
          mkService (isConnected s) (deviceId s)
                    (splice1 index (listeners s))
                    (NotificationService.clearInterval (intervalId l)
                                                       (timers s))
      | None => s
      end
  | None => s
  end.

(** The [remove] method of a subscription. *)
Definition remove (subscription : option string) (s : Service) : Service :=
  match subscription with
  | Some id => removeListener id s
  | None => s
  end.

Definition isDeviceConnected (s : Service) : bool := isConnected s.

Definition getConnectedDeviceId (s : Service) : option string := deviceId s.

(** The state-changing calls, and the states they reach from a fresh
    service. *)
Inductive Op : Type :=
| OpConnectToDevice (device : string)
| OpDisconnect
| OpSubscribeToConversations (now : Z)
| OpRemoveListener (id : string).

Definition step (s : Service) (op : Op) : Service :=
  match op with
  | OpConnectToDevice device => fst (connectToDevice device s)
  | OpDisconnect => fst (disconnect s)
  | OpSubscribeToConversations now => fst (subscribeToConversations now s)
  | OpRemoveListener id => removeListener id s
  end.

Definition run (ops : list Op) : Service := fold_left step ops constructor.

End OmiService.

(** ** Vocabulary of the further properties *)

Module Props.

(** Some character of the string satisfies [f]. *)
Fixpoint anyChar (f : ascii -> bool) (s : string) : bool :=
  match s with
  | EmptyString => false
  | String c s' => f c || anyChar f s'
  end.

(** The conversations handed to [updateUserProfile] in a run of the store,
    each with the time of the call. *)
Definition updatesOf (ops : list MentorService.Op)
  : list (Z * MentorService.ConversationData) :=
  flat_map (fun op =>
              match op with
              | MentorService.OpUpdateUserProfile now d => [(now, d)]
              | _ => []
              end) ops.

(** A run of [start] ([true]) and [stop] ([false]) calls on a scheduler. *)
Definition startStop (calls : list bool) (s : NotificationService.Service)
  : NotificationService.Service :=
  fold_left (fun st (call : bool) =>
               if call then NotificationService.start st
               else NotificationService.stop st)
            calls s.

(** The score an entry of [topicScores] carries for a topic. *)
Definition scoreOf (lowerText : string) (topic : string) : nat :=
  match MentorUtils.ownProperty (MentorUtils.topicScores lowerText) topic with
  | Some n => n
  | None => 0
  end.

End Props.

(** ** The specification's words, for comparison with the code *)

Module Spec.

(** Delivery urgency: high before medium before low. *)
Inductive moreUrgent : Priority -> Priority -> Prop :=
| high_before_medium : moreUrgent high medium
| high_before_low : moreUrgent high low
| medium_before_low : moreUrgent medium low.

(** The delivery order: first by urgency, then by ascending trigger time. *)
Definition deliveryOrder (a b : MentorService.Notification) : Prop :=
  moreUrgent (MentorService.priority a) (MentorService.priority b)
  \/ (MentorService.priority a = MentorService.priority b
      /\ (MentorService.triggerTime a <= MentorService.triggerTime b)%Z).

(** The queue is kept in delivery order. *)
Definition queueSorted (s : MentorService.Service) : Prop :=
  StronglySorted deliveryOrder (MentorService.notificationQueue s).


(** Local time keeps its offset from UTC over the [m] minutes after [now]:
    the offset read at the wall-clock time [m] minutes ahead is the one in
    force at [now]. It fails where a change of the offset, such as the
    start or the end of daylight saving time, lies in between. *)
Definition offsetKept (tz : JsDate.TimeZone) (now m : Z) : Prop :=
  JsDate.offsetAtLocal tz (now + JsDate.offsetAtUTC tz now + m * 60000)%Z
  = JsDate.offsetAtUTC tz now.

(** Central European time around the end of daylight saving time on
    26 October 2025, 01:00 UTC: two hours ahead of UTC before, one hour
    after. The wall-clock hour from 02:00 to 03:00 occurs twice and is read
    with the offset before the change. *)
Definition centralEurope2025 : JsDate.TimeZone :=
  JsDate.mkTimeZone
    (fun t => if (t <? 1761440400000)%Z then 7200000%Z else 3600000%Z)
    (fun local =>
       if (local <? 1761440400000 + 7200000)%Z then 7200000%Z
       else 3600000%Z).

(** [clamp(x, lo, hi)]. *)
Definition clamp (x lo hi : Q) : Q :=
  if Qle_bool x lo then lo else if Qle_bool hi x then hi else x.

(** The fixed keyword sets. *)
Definition positiveKeywords : list string :=
  [ "good"; "great"; "excellent"; "amazing"; "wonderful"; "fantastic";
    "happy"; "excited"; "pleased"; "love"; "enjoy"; "positive"; "success";
    "achievement"; "accomplished"; "proud"; "delighted"; "perfect" ].

Definition negativeKeywords : list string :=
  [ "bad"; "terrible"; "awful"; "horrible"; "poor"; "disappointing";
    "sad"; "angry"; "upset"; "hate"; "dislike"; "negative"; "failure";
    "problem"; "issue"; "trouble"; "difficult"; "frustrated"; "annoyed" ].

(** The characters of a token: letters, digits and the underscore. *)
Definition tokenChars : string :=
  "abcdefghijklmnopqrstuvwxyzABCDEFGHIJKLMNOPQRSTUVWXYZ0123456789_".

Definition isTokenChar (c : ascii) : bool :=
  existsb (Ascii.eqb c) (list_ascii_of_string tokenChars).

(** The tokens of a text, read from left to right: token characters gather
    in [current]; the first character of a run of other characters closes
    the token, and the end of the text closes the last one. A token is
    empty where the text starts or ends with such a run. *)
Fixpoint scan (current : string) (inRun : bool) (s : string) : list string :=
  match s with
  | EmptyString => [current]
  | String c s' =>
      if isTokenChar c then scan (current ++ String c "") false s'
      else if inRun then scan current true s'
      else current :: scan "" true s'
  end.

(** Tokens are compared without regard to case. *)
Definition tokensOf (text : string) : list string :=
  scan "" false (JsString.toLowerCase text).

Definition isKeyword (keywords : list string) (token : string) : bool :=
  if in_dec string_dec token keywords then true else false.

(** The tokens of the text that are keywords, each occurrence counted. *)
Definition hits (keywords : list string) (text : string) : nat :=
  List.length (filter (isKeyword keywords) (tokensOf text)).



(** The same formula in exact arithmetic. *)
Definition exactScore (text : string) : Q :=
  clamp (0.5 + 2.5 * (inject_Z (Z.of_nat (hits positiveKeywords text))
                      / inject_Z (Z.of_nat (List.length (tokensOf text)))
                      - inject_Z (Z.of_nat (hits negativeKeywords text))
                        / inject_Z (Z.of_nat (List.length (tokensOf text)))))%Q
        0%Q 1%Q.


(** A text whose exact score is 0.25, the threshold of the label
    negative. *)
Definition thresholdText : string :=
  "Good, great, happy; bad, sad, angry, upset we were.".

(** The text of the analyzer scenario. *)
Definition scenarioText : string :=
  "I need to finish the report by tomorrow. It was a great meeting.".

(** *** One tick of the scheduler *)

Section Tick.

Variable Channel : Type.
Variable sendNotification :
  Channel -> MentorService.Notification -> Channel * bool.

(** One dispatch attempt per notification, in order, each with its
    outcome, whatever the outcomes before it. *)
Fixpoint attempts (pending : list MentorService.Notification)
         (channel : Channel)
  : list (MentorService.Notification * bool) :=
  match pending with
  | [] => []
  | n :: rest =>
      let (channel', resolved) := sendNotification channel n in
      (n, resolved) :: attempts rest channel'
  end.

(** The log entry of one attempt. *)
Definition attemptEvent (o : MentorService.Notification * bool)
  : NotificationService.Event :=
  NotificationService.Dispatch (fst o) (snd o).

(** The ids of the notifications whose dispatch succeeded. *)
Definition successfulIds
           (outcomes : list (MentorService.Notification * bool))
  : list (option string) :=
  map (fun o => MentorService.id (fst o)) (filter snd outcomes).

(** The dispatch attempts and the calls of [markSent] in a log. *)
Definition dispatchesOf (log : list NotificationService.Event)
  : list (MentorService.Notification * bool) :=
  flat_map (fun e =>
              match e with
              | NotificationService.Dispatch n ok => [(n, ok)]
              | NotificationService.MarkSent _ => []
              end) log.

Definition markSentCallsOf (log : list NotificationService.Event)
  : list (list (option string)) :=
  flat_map (fun e =>
              match e with
              | NotificationService.Dispatch _ _ => []
              | NotificationService.MarkSent ids => [ids]
              end) log.

(** The three parts of the tick contract, for a tick at [now] from the
    store [ms] and the channel state [channel]. *)
Definition tick (now : Z) (ms : MentorService.Service) (channel : Channel) :=
  NotificationService.checkAndSendNotifications
    Channel sendNotification now ms channel.

(** Every pending notification is attempted, failures or not. *)
Definition dispatchesAll (now : Z) (ms : MentorService.Service)
           (channel : Channel) : Prop :=
  dispatchesOf (snd (tick now ms channel))
  = attempts (MentorService.getPendingNotifications now ms) channel.

(** [markSent] is called exactly once, with the successful ids. *)
Definition marksSentOnce (now : Z) (ms : MentorService.Service)
           (channel : Channel) : Prop :=
  markSentCallsOf (snd (tick now ms channel))
  = [successfulIds
       (attempts (MentorService.getPendingNotifications now ms) channel)].

(** The notifications whose dispatch failed are still queued. *)
Definition failedStayQueued (now : Z) (ms : MentorService.Service)
           (channel : Channel) : Prop :=
  forall n,
    In (n, false)
       (attempts (MentorService.getPendingNotifications now ms) channel) ->
    In n (MentorService.notificationQueue
            (fst (fst (tick now ms channel)))).

End Tick.

End Spec.

(** * Properties *)

(** ** The stable sort *)

Section JsSortFacts.

Context {A : Type}.
Variable cmp : A -> A -> Z.

Lemma insertSorted_perm (x : A) (l : list A) :
  Permutation (insertSorted cmp x l) (x :: l).
Proof.
  induction l as [|y l IH]; simpl.
  - apply Permutation_refl.
  - destruct (cmp x y <=? 0)%Z.
    + apply Permutation_refl.
    + eapply perm_trans; [apply perm_skip, IH | apply perm_swap].
Qed.

Lemma jsSort_perm (l : list A) : Permutation (jsSort cmp l) l.
Proof.
  induction l as [|x l IH]; simpl.
  - constructor.
  - eapply perm_trans; [apply insertSorted_perm | apply perm_skip, IH].
Qed.

Lemma jsSort_In (l : list A) (x : A) : In x (jsSort cmp l) <-> In x l.
Proof.
  split; apply Permutation_in;
    [apply jsSort_perm | apply Permutation_sym, jsSort_perm].
Qed.

(** A consistent comparator: any two elements are comparable, and the
    order is transitive. *)
Hypothesis cmp_total : forall a b, (0 < cmp a b)%Z -> (cmp b a <= 0)%Z.
Hypothesis cmp_trans :
  forall a b c, cmpLe cmp a b -> cmpLe cmp b c -> cmpLe cmp a c.

Lemma insertSorted_sorted (x : A) (l : list A) :
  StronglySorted (cmpLe cmp) l ->
  StronglySorted (cmpLe cmp) (insertSorted cmp x l).
Proof.
  induction 1 as [|y l Hs IH Hall]; simpl.
  - repeat constructor.
  - destruct (cmp x y <=? 0)%Z eqn:E.
    + apply Z.leb_le in E.
      constructor; [constructor; assumption|].
      constructor; [exact E|].
      eapply Forall_impl; [|exact Hall].
      intros z Hz. eapply cmp_trans; eassumption.
    + apply Z.leb_gt in E.
      constructor; [exact IH|].
      eapply Permutation_Forall;
        [apply Permutation_sym, insertSorted_perm|].
      constructor; [apply cmp_total; exact E | exact Hall].
Qed.

Lemma jsSort_sorted (l : list A) :
  StronglySorted (cmpLe cmp) (jsSort cmp l).
Proof.
  induction l as [|x l IH]; simpl.
  - constructor.
  - apply insertSorted_sorted, IH.
Qed.

End JsSortFacts.

Lemma StronglySorted_filter {A : Type} (R : A -> A -> Prop) (f : A -> bool)
      (l : list A) :
  StronglySorted R l -> StronglySorted R (filter f l).
Proof.
  induction 1 as [|x l Hs IH Hall]; simpl.
  - constructor.
  - destruct (f x); [|exact IH].
    constructor; [exact IH|].
    apply Forall_forall. intros y Hy.
    apply filter_In in Hy. destruct Hy as [Hy _].
    rewrite Forall_forall in Hall. apply Hall, Hy.
Qed.

Lemma filter_split_perm {A : Type} (f : A -> bool) (l : list A) :
  Permutation l (filter f l ++ filter (fun x => negb (f x)) l).
Proof.
  induction l as [|x l IH]; simpl.
  - constructor.
  - destruct (f x); simpl.
    + apply perm_skip, IH.
    + apply Permutation_cons_app, IH.
Qed.

Lemma StronglySorted_impl {A : Type} (R S : A -> A -> Prop) (l : list A) :
  (forall a b, R a b -> S a b) -> StronglySorted R l -> StronglySorted S l.
Proof.
  intros HRS. induction 1 as [|x l Hs IH Hall]; constructor.
  - exact IH.
  - eapply Forall_impl; [|exact Hall]. intros; apply HRS; assumption.
Qed.

(** ** Rounding to a double *)

Section NumberFacts.

Import JsNumber.

Local Open Scope Q_scope.

Lemma roundHalfEven_floor (x : Q) :
  roundHalfEven x = Qfloor x
  \/ (roundHalfEven x = (Qfloor x + 1)%Z /\ inject_Z (Qfloor x) < x).
Proof.
  unfold roundHalfEven.
  destruct (Qcompare_spec (x - inject_Z (Qfloor x)) (1 # 2)) as [H | H | H].
  - destruct (Z.even (Qfloor x)); [left; reflexivity|].
    right. split; [reflexivity | lra].
  - left. reflexivity.
  - right. split; [reflexivity | lra].
Qed.

Lemma roundHalfEven_lower (N : Z) (x : Q) :
  inject_Z N <= x -> (N <= roundHalfEven x)%Z.
Proof.
  intros H. apply Qfloor_resp_le in H. rewrite Qfloor_Z in H.
  destruct (roundHalfEven_floor x) as [E | [E _]]; rewrite E; lia.
Qed.

Lemma roundHalfEven_upper (N : Z) (x : Q) :
  x <= inject_Z N -> (roundHalfEven x <= N)%Z.
Proof.
  intros H. pose proof (Qfloor_resp_le _ _ H) as Hf. rewrite Qfloor_Z in Hf.
  destruct (roundHalfEven_floor x) as [E | [E Hlt]]; rewrite E; [exact Hf|].
  assert (Hne : (Qfloor x < N)%Z).
  { rewrite Zlt_Qlt. lra. }
  lia.
Qed.

Lemma roundHalfEven_compat (x y : Q) :
  x == y -> roundHalfEven x = roundHalfEven y.
Proof.
  intros H. unfold roundHalfEven. rewrite (Qfloor_comp _ _ H).
  assert (Hc : (x - inject_Z (Qfloor y) ?= 1 # 2)
               = (y - inject_Z (Qfloor y) ?= 1 # 2)).
  { apply Qcompare_comp; [rewrite H|]; reflexivity. }
  rewrite Hc. reflexivity.
Qed.

Lemma two_pow_pos (e : Z) : 0 < 2 ^ e.
Proof. apply Qpower_0_lt. reflexivity. Qed.

Lemma two_pow_succ (e : Z) : 2 ^ (e + 1) == 2 * 2 ^ e.
Proof.
  rewrite Qpower_plus by discriminate. rewrite Qpower_1_r. ring.
Qed.

Lemma two_pow_inject (n : Z) : (0 <= n)%Z -> inject_Z (2 ^ n) == 2 ^ n.
Proof. intros H. apply (Zpower_Qpower 2 n H). Qed.

Lemma two_pow_sub (a b : Z) : 2 ^ (a - b) == 2 ^ a / 2 ^ b.
Proof. apply Qpower_minus. discriminate. Qed.

(** [floorLog2 x] is the exponent of the power of two at or below [x]. *)
Lemma floorLog2_spec (x : Q) :
  0 < x -> 2 ^ floorLog2 x <= x /\ x < 2 ^ (floorLog2 x + 1).
Proof.
  intros Hx. unfold floorLog2.
  destruct x as [n d]. cbn [Qnum Qden].
  assert (Hn : (0 < n)%Z).
  { unfold Qlt in Hx. cbn in Hx. lia. }
  destruct (Z.log2_spec n Hn) as [Hn1 Hn2].
  destruct (Z.log2_spec (Zpos d) (Pos2Z.is_pos d)) as [Hd1 Hd2].
  set (a := Z.log2 n) in *. set (b := Z.log2 (Zpos d)) in *.
  assert (Ha : (0 <= a)%Z) by apply Z.log2_nonneg.
  assert (Hb : (0 <= b)%Z) by apply Z.log2_nonneg.
  assert (Hq : n # d == inject_Z n / inject_Z (Zpos d)).
  { rewrite Qmake_Qdiv. reflexivity. }
  assert (Hdpos : 0 < inject_Z (Zpos d)).
  { unfold Qlt. cbn. lia. }
  assert (Hpa := two_pow_pos a). assert (Hpb := two_pow_pos b).
  assert (Hn1q : 2 ^ a <= inject_Z n).
  { rewrite <- two_pow_inject by exact Ha. rewrite <- Zle_Qle. exact Hn1. }
  assert (Hn2q : inject_Z n < 2 * 2 ^ a).
  { rewrite <- two_pow_succ. rewrite <- two_pow_inject by lia.
    rewrite <- Zlt_Qlt. exact Hn2. }
  assert (Hd1q : 2 ^ b <= inject_Z (Zpos d)).
  { rewrite <- two_pow_inject by exact Hb. rewrite <- Zle_Qle. exact Hd1. }
  assert (Hd2q : inject_Z (Zpos d) < 2 * 2 ^ b).
  { rewrite <- two_pow_succ. rewrite <- two_pow_inject by lia.
    rewrite <- Zlt_Qlt. exact Hd2. }
  assert (Hupper : n # d < 2 * 2 ^ (a - b)).
  { rewrite Hq, two_pow_sub.
    apply Qlt_shift_div_r; [exact Hdpos|].
    assert (E : 2 * (2 ^ a / 2 ^ b) * inject_Z (Zpos d)
                == 2 * 2 ^ a * (inject_Z (Zpos d) / 2 ^ b)).
    { field. lra. }
    rewrite E.
    assert (1 <= inject_Z (Zpos d) / 2 ^ b).
    { apply Qle_shift_div_l; [exact Hpb | lra]. }
    nra. }
  assert (Hlower : 2 ^ (a - b - 1) < n # d).
  { rewrite Hq.
    apply Qlt_shift_div_l; [exact Hdpos|].
    assert (E : 2 ^ (a - b - 1) == 2 ^ a / (2 * 2 ^ b)).
    { replace (a - b - 1)%Z with (a - (b + 1))%Z by lia.
      rewrite two_pow_sub, two_pow_succ. reflexivity. }
    rewrite E.
    assert (E2 : 2 ^ a / (2 * 2 ^ b) * inject_Z (Zpos d)
                 == 2 ^ a * (inject_Z (Zpos d) / (2 * 2 ^ b))).
    { field. lra. }
    rewrite E2.
    assert (inject_Z (Zpos d) / (2 * 2 ^ b) < 1).
    { apply Qlt_shift_div_r; lra. }
    nra. }
  destruct (Qle_bool (2 ^ (a - b)) (n # d)) eqn:E.
  - apply Qle_bool_iff in E. split; [exact E|].
    rewrite two_pow_succ. exact Hupper.
  - split; [apply Qlt_le_weak, Hlower|].
    replace (a - b - 1 + 1)%Z with (a - b)%Z by lia.
    apply Qnot_le_lt. intros H. apply Qle_bool_iff in H. congruence.
Qed.

Lemma two_pow_le (a b : Z) : (a <= b)%Z -> 2 ^ a <= 2 ^ b.
Proof. intros H. apply Qpower_le_compat_l; [exact H | discriminate]. Qed.

Lemma two_pow_lt_inv (a b : Z) : 2 ^ a < 2 ^ b -> (a < b)%Z.
Proof. intros H. apply (Qpower_lt_compat_l_inv 2); [exact H | reflexivity]. Qed.

Lemma floorLog2_unique (x : Q) (e : Z) :
  2 ^ e <= x -> x < 2 ^ (e + 1) -> floorLog2 x = e.
Proof.
  intros H1 H2.
  assert (Hx : 0 < x) by (pose proof (two_pow_pos e); lra).
  destruct (floorLog2_spec x Hx) as [H3 H4].
  assert (floorLog2 x < e + 1)%Z by (apply two_pow_lt_inv; lra).
  assert (e < floorLog2 x + 1)%Z by (apply two_pow_lt_inv; lra).
  lia.
Qed.

Lemma floorLog2_compat (x y : Q) :
  0 < x -> x == y -> floorLog2 x = floorLog2 y.
Proof.
  intros Hx H. assert (Hy : 0 < y) by lra.
  destruct (floorLog2_spec y Hy) as [H1 H2].
  apply floorLog2_unique; lra.
Qed.

Lemma Qabs_pos_lt (x : Q) : ~ x == 0 -> 0 < Qabs x.
Proof.
  intros H. destruct (Qlt_le_dec 0 x) as [Hp | Hn].
  - rewrite Qabs_pos; lra.
  - rewrite Qabs_neg by exact Hn.
    assert (x < 0).
    { apply Qle_lt_or_eq in Hn. destruct Hn; [assumption | contradiction]. }
    lra.
Qed.

Lemma quantum_compat (x y : Q) :
  ~ x == 0 -> x == y -> quantum x = quantum y.
Proof.
  intros Hx H. unfold quantum.
  rewrite (floorLog2_compat (Qabs x) (Qabs y));
    [reflexivity | apply Qabs_pos_lt, Hx | apply Qabs_wd, H].
Qed.

(** Equal numbers round to the same double, in the same representation. *)
Lemma roundToDouble_compat (x y : Q) :
  x == y -> roundToDouble x = roundToDouble y.
Proof.
  intros H. unfold roundToDouble.
  rewrite (Qeqb_comp x y H 0 0 (Qeq_refl 0)).
  destruct (Qeq_bool y 0) eqn:E; [reflexivity|].
  apply Qeq_bool_neq in E.
  assert (Hx : ~ x == 0) by (rewrite H; exact E).
  rewrite (quantum_compat x y Hx H).
  apply Qred_complete.
  rewrite (roundHalfEven_compat (x / 2 ^ quantum y) (y / 2 ^ quantum y));
    [reflexivity | rewrite H; reflexivity].
Qed.

Lemma roundToDouble_eq (x : Q) :
  ~ x == 0 ->
  roundToDouble x
  == inject_Z (roundHalfEven (x / 2 ^ quantum x)) * 2 ^ quantum x.
Proof.
  intros H. unfold roundToDouble.
  destruct (Qeq_bool x 0) eqn:E.
  - apply Qeq_bool_eq in E. contradiction.
  - apply Qred_correct.
Qed.

Lemma roundToDouble_zero (x : Q) : x == 0 -> roundToDouble x = 0.
Proof. intros H. rewrite (roundToDouble_compat x 0 H). reflexivity. Qed.

(** A multiple of the quantum at or below [x] is at or below the double
    of [x]; likewise above. *)
Lemma roundToDouble_lower (N : Z) (x : Q) :
  ~ x == 0 -> inject_Z N * 2 ^ quantum x <= x ->
  inject_Z N * 2 ^ quantum x <= roundToDouble x.
Proof.
  intros Hx H. rewrite (roundToDouble_eq x Hx).
  pose proof (two_pow_pos (quantum x)) as Hq.
  assert (Hm : inject_Z N <= x / 2 ^ quantum x).
  { apply Qle_shift_div_l; assumption. }
  apply roundHalfEven_lower in Hm. rewrite Zle_Qle in Hm.
  apply Qmult_le_compat_r; [exact Hm | lra].
Qed.

Lemma roundToDouble_upper (N : Z) (x : Q) :
  ~ x == 0 -> x <= inject_Z N * 2 ^ quantum x ->
  roundToDouble x <= inject_Z N * 2 ^ quantum x.
Proof.
  intros Hx H. rewrite (roundToDouble_eq x Hx).
  pose proof (two_pow_pos (quantum x)) as Hq.
  assert (Hm : x / 2 ^ quantum x <= inject_Z N).
  { apply Qle_shift_div_r; assumption. }
  apply roundHalfEven_upper in Hm. rewrite Zle_Qle in Hm.
  apply Qmult_le_compat_r; [exact Hm | lra].
Qed.

(** Rounding keeps the sign. *)
Lemma roundToDouble_nonneg (x : Q) : 0 <= x -> 0 <= roundToDouble x.
Proof.
  intros H. destruct (Qeq_dec x 0) as [E | E].
  - rewrite (roundToDouble_zero x E). lra.
  - pose proof (roundToDouble_lower 0 x E) as L.
    assert (Z0 : inject_Z 0 * 2 ^ quantum x == 0) by ring.
    rewrite Z0 in L. apply L, H.
Qed.

Lemma roundToDouble_nonpos (x : Q) : x <= 0 -> roundToDouble x <= 0.
Proof.
  intros H. destruct (Qeq_dec x 0) as [E | E].
  - rewrite (roundToDouble_zero x E). lra.
  - pose proof (roundToDouble_upper 0 x E) as L.
    assert (Z0 : inject_Z 0 * 2 ^ quantum x == 0) by ring.
    rewrite Z0 in L. apply L, H.
Qed.

Lemma quantum_pos (x : Q) :
  0 < x -> quantum x = Z.max (floorLog2 x - 52) (-1074).
Proof.
  intros Hx. unfold quantum.
  rewrite (floorLog2_compat (Qabs x) x);
    [reflexivity | apply Qabs_pos_lt; lra | apply Qabs_pos; lra].
Qed.

Lemma quantum_le (x : Q) (k : Z) :
  (-1074 <= k)%Z -> 0 < x -> x <= 2 ^ k -> (quantum x <= k)%Z.
Proof.
  intros Hk Hx H. rewrite (quantum_pos x Hx).
  destruct (floorLog2_spec x Hx) as [H1 _].
  assert (floorLog2 x < k + 1)%Z.
  { apply two_pow_lt_inv. rewrite two_pow_succ.
    pose proof (two_pow_pos k). lra. }
  lia.
Qed.

Lemma two_pow_split (k q : Z) :
  (q <= k)%Z -> 2 ^ k == inject_Z (2 ^ (k - q)) * 2 ^ q.
Proof.
  intros H. rewrite two_pow_inject by lia. rewrite two_pow_sub.
  field. pose proof (two_pow_pos q). lra.
Qed.

(** A power of two in the range of the doubles bounds the double of
    whatever it bounds. *)
Lemma roundToDouble_le_pow2 (k : Z) (x : Q) :
  (-1074 <= k)%Z -> x <= 2 ^ k -> roundToDouble x <= 2 ^ k.
Proof.
  intros Hk H. destruct (Qlt_le_dec 0 x) as [Hp | Hn].
  - assert (Hx : ~ x == 0) by lra.
    pose proof (quantum_le x k Hk Hp H) as Hq.
    rewrite (two_pow_split k (quantum x) Hq) in *.
    apply roundToDouble_upper; assumption.
  - pose proof (roundToDouble_nonpos x Hn). pose proof (two_pow_pos k). lra.
Qed.

Lemma roundToDouble_ge_pow2 (k : Z) (x : Q) :
  (-1074 <= k)%Z -> 2 ^ k <= x -> 2 ^ k <= roundToDouble x.
Proof.
  intros Hk H. pose proof (two_pow_pos k) as Hkp.
  assert (Hp : 0 < x) by lra. assert (Hx : ~ x == 0) by lra.
  destruct (floorLog2_spec x Hp) as [H1 H2].
  assert (He : (k <= floorLog2 x)%Z).
  { assert (k < floorLog2 x + 1)%Z by (apply two_pow_lt_inv; lra). lia. }
  assert (Hq : (quantum x <= floorLog2 x)%Z).
  { rewrite (quantum_pos x Hp). lia. }
  apply Qle_trans with (2 ^ floorLog2 x); [apply two_pow_le, He|].
  rewrite (two_pow_split (floorLog2 x) (quantum x) Hq) in *.
  apply roundToDouble_lower; assumption.
Qed.

Lemma roundToDouble_ge_half (x : Q) : 1 # 2 <= x -> 1 # 2 <= roundToDouble x.
Proof. apply (roundToDouble_ge_pow2 (-1)). lia. Qed.

Lemma roundToDouble_le_half (x : Q) : x <= 1 # 2 -> roundToDouble x <= 1 # 2.
Proof. apply (roundToDouble_le_pow2 (-1)). lia. Qed.

(** *** The rounding error *)











End NumberFacts.

(** ** Minutes of local time *)

Section DateFacts.

Import JsDate.



Lemma fixedOffset_offsetKept (offset t m : Z) :
  Spec.offsetKept (fixedOffset offset) t m.
Proof. reflexivity. Qed.

End DateFacts.

(** ** The notification queue *)

Section QueueFacts.

Import MentorService.

Lemma compareNotifications_total (a b : Notification) :
  (0 < compareNotifications a b)%Z -> (compareNotifications b a <= 0)%Z.
Proof.
  unfold compareNotifications.
  destruct (priority a), (priority b); simpl; lia.
Qed.

Lemma compareNotifications_trans (a b c : Notification) :
  cmpLe compareNotifications a b -> cmpLe compareNotifications b c ->
  cmpLe compareNotifications a c.
Proof.
  unfold cmpLe, compareNotifications.
  destruct (priority a), (priority b), (priority c); simpl; lia.
Qed.

(** The comparator orders as the delivery order of the specification. *)
Lemma compareNotifications_deliveryOrder (a b : Notification) :
  cmpLe compareNotifications a b <-> Spec.deliveryOrder a b.
Proof.
  unfold cmpLe, compareNotifications, Spec.deliveryOrder.
  split.
  - destruct (priority a) eqn:Ea, (priority b) eqn:Eb; simpl; intros H;
      solve [ left; constructor | right; split; [reflexivity | lia] | lia ].
  - intros [H | [H Ht]].
    + inversion H; simpl; lia.
    + rewrite H. destruct (priority b); simpl; lia.
Qed.

Lemma queueNotification_sorted (n : Notification) (s : Service) :
  Spec.queueSorted (queueNotification n s).
Proof.
  unfold Spec.queueSorted, queueNotification, sortNotificationQueue; simpl.
  eapply StronglySorted_impl.
  - intros a b. apply compareNotifications_deliveryOrder.
  - apply jsSort_sorted.
    + apply compareNotifications_total.
    + apply compareNotifications_trans.
Qed.

Lemma generateNotifications_sorted (now : Z) (i : Insights) (s : Service) :
  Spec.queueSorted s -> Spec.queueSorted (generateNotifications now i s).
Proof.
  intros Hs. unfold generateNotifications.
  set (s1 := match actionItems i with Some _ => _ | None => _ end).
  assert (H1 : Spec.queueSorted s1).
  { subst s1. destruct (actionItems i) as [items|]; [|exact Hs].
    destruct (0 <? List.length items)%nat; [|exact Hs].
    revert s Hs. induction items as [|item items IH]; intros s Hs; simpl.
    - exact Hs.
    - apply IH, queueNotification_sorted. }
  destruct (sentiment i) as [sent|]; [|exact H1].
  destruct (scoreBelow sent); [apply queueNotification_sorted | exact H1].
Qed.

Lemma step_sorted (s : Service) (op : Op) :
  Spec.queueSorted s -> Spec.queueSorted (step s op).
Proof.
  intros Hs. destruct op; simpl.
  - unfold updateUserProfile. apply generateNotifications_sorted. exact Hs.
  - apply generateNotifications_sorted, Hs.
  - apply queueNotification_sorted.
  - unfold Spec.queueSorted, markNotificationsAsSent; simpl.
    apply StronglySorted_filter, Hs.
Qed.

Lemma fold_step_sorted (ops : list Op) (s : Service) :
  Spec.queueSorted s -> Spec.queueSorted (fold_left step ops s).
Proof.
  revert s. induction ops as [|op ops IH]; intros s Hs; simpl.
  - exact Hs.
  - apply IH, step_sorted, Hs.
Qed.

Lemma run_sorted (ops : list Op) : Spec.queueSorted (run ops).
Proof. apply fold_step_sorted. constructor. Qed.

(** C1. In every state the store reaches, [getPendingNotifications now]
    returns exactly the queued notifications with [triggerTime <= now]
    (the rest of the queue is due later), in delivery order: by urgency,
    high before medium before low, then by ascending trigger time. In
    particular three due notifications queued as low, high, medium come
    back as high, medium, low. *)
Theorem getPendingNotifications_due_in_delivery_order :
  forall (ops : list Op) (now : Z),
    let s := run ops in
    let pending := getPendingNotifications now s in
    (forall n, In n pending <->
               In n (notificationQueue s) /\ (triggerTime n <= now)%Z)
    /\ (exists later,
          Permutation (notificationQueue s) (pending ++ later)
          /\ Forall (fun n => (now < triggerTime n)%Z) later)
    /\ StronglySorted Spec.deliveryOrder pending
    /\ (forall a b c,
          priority a = low -> priority b = high -> priority c = medium ->
          (triggerTime a <= now)%Z -> (triggerTime b <= now)%Z ->
          (triggerTime c <= now)%Z ->
          getPendingNotifications now
            (run [OpQueueNotification a; OpQueueNotification b;
                  OpQueueNotification c]) = [b; c; a]).
Proof.
  intros ops now s pending.
  split; [|split; [|split]].
  - intros n. unfold pending, getPendingNotifications.
    rewrite filter_In, Z.leb_le. reflexivity.
  - exists (filter (fun n => negb (triggerTime n <=? now)%Z)
                   (notificationQueue s)).
    split; [apply filter_split_perm|].
    apply Forall_forall. intros n Hn. apply filter_In in Hn.
    destruct Hn as [_ Hn]. apply negb_true_iff, Z.leb_gt in Hn. exact Hn.
  - apply StronglySorted_filter, run_sorted.
  - intros a b c Ha Hb Hc Hta Htb Htc.
    unfold getPendingNotifications, run; simpl.
    apply Z.leb_le in Hta, Htb, Htc.
    unfold compareNotifications.
    repeat (rewrite ?Ha, ?Hb, ?Hc; simpl).
    rewrite Hta, Htb, Htc. reflexivity.
Qed.

(** An instance: three notifications created together, queued as low,
    high, medium, and read one hour later. *)
Lemma getPendingNotifications_due_in_delivery_order_witness :
  getPendingNotifications 3600000
    (run [OpQueueNotification (mkNotification (Some "a") "t" "A" "" low 0);
          OpQueueNotification (mkNotification (Some "b") "t" "B" "" high 0);
          OpQueueNotification (mkNotification (Some "c") "t" "C" "" medium 0)])
  = [mkNotification (Some "b") "t" "B" "" high 0;
     mkNotification (Some "c") "t" "C" "" medium 0;
     mkNotification (Some "a") "t" "A" "" low 0].
Proof.
  apply (proj2 (proj2 (proj2
           (getPendingNotifications_due_in_delivery_order [] 3600000))));
    simpl; solve [reflexivity | lia].
Defined.

Lemma sameId_eq (a b : option string) : sameId a b = true <-> a = b.
Proof.
  destruct a as [x|], b as [y|]; simpl; try (split; congruence).
  rewrite String.eqb_eq. split; congruence.
Qed.

Lemma idsInclude_In (ids : list (option string)) (i : option string) :
  idsInclude ids i = true <-> In i ids.
Proof.
  unfold idsInclude. rewrite existsb_exists. split.
  - intros [x [Hin Heq]]. apply sameId_eq in Heq. subst. exact Hin.
  - intros Hin. exists i. split; [exact Hin | apply sameId_eq; reflexivity].
Qed.

Lemma idsInclude_false (ids : list (option string)) (i : option string) :
  idsInclude ids i = false <-> ~ In i ids.
Proof.
  rewrite <- idsInclude_In. destruct (idsInclude ids i); split; congruence.
Qed.

(** C8. [markNotificationsAsSent ids] keeps exactly the queued
    notifications whose id is not among [ids], in their order, and removes
    the others; only the ids that occur in the queue matter, so ids that
    are not present are ignored; and a second call with the same ids
    changes nothing. *)
Theorem markNotificationsAsSent_removes_exactly_idempotent :
  forall (ids : list (option string)) (s : Service),
    let s' := markNotificationsAsSent ids s in
    (forall n, In n (notificationQueue s') <->
               In n (notificationQueue s) /\ ~ In (id n) ids)
    /\ (exists removed,
          Permutation (notificationQueue s)
                      (notificationQueue s' ++ removed)
          /\ Forall (fun n => In (id n) ids) removed)
    /\ (forall ids',
          (forall n, In n (notificationQueue s) ->
                     (In (id n) ids <-> In (id n) ids')) ->
          markNotificationsAsSent ids' s = s')
    /\ ((forall n, In n (notificationQueue s) -> ~ In (id n) ids) ->
        s' = s)
    /\ markNotificationsAsSent ids s' = s'
    /\ userProfile s' = userProfile s
    /\ conversationHistory s' = conversationHistory s.
Proof.
  intros ids s s'.
  split; [|split; [|split; [|split; [|split; [|split]]]]].
  - intros n. unfold s', markNotificationsAsSent; simpl.
    rewrite filter_In, negb_true_iff, idsInclude_false. reflexivity.
  - exists (filter (fun n => negb (negb (idsInclude ids (id n))))
                   (notificationQueue s)).
    split; [apply filter_split_perm|].
    apply Forall_forall. intros n Hn. apply filter_In in Hn.
    destruct Hn as [_ Hn]. rewrite negb_involutive in Hn.
    apply idsInclude_In, Hn.
  - intros ids' Hsame. unfold s', markNotificationsAsSent. f_equal.
    apply filter_ext_in. intros n Hn. f_equal.
    specialize (Hsame n Hn).
    destruct (idsInclude ids' (id n)) eqn:E'.
    + symmetry. apply idsInclude_In, Hsame, idsInclude_In, E'.
    + symmetry. apply idsInclude_false. intros Hin.
      apply Hsame, idsInclude_In in Hin. congruence.
  - intros Habsent. unfold s', markNotificationsAsSent, setQueue.
    destruct s as [p h q]; simpl in *. f_equal.
    induction q as [|n q IH]; simpl; [reflexivity|].
    assert (E : idsInclude ids (id n) = false)
      by (apply idsInclude_false, Habsent; left; reflexivity).
    rewrite E; simpl. f_equal. apply IH.
    intros m Hm. apply Habsent. right. exact Hm.
  - unfold s', markNotificationsAsSent, setQueue; simpl. f_equal.
    induction (notificationQueue s) as [|n q IH]; simpl; [reflexivity|].
    destruct (idsInclude ids (id n)) eqn:E; simpl; [exact IH|].
    rewrite E; simpl. f_equal. exact IH.
  - reflexivity.
  - reflexivity.
Qed.

(** An instance of C8: one of two queued notifications is marked, together
    with an id that is not queued. *)
Lemma markNotificationsAsSent_removes_exactly_idempotent_witness :
  markNotificationsAsSent [Some "n1"; Some "ghost"]
    (run [OpQueueNotification
            (mkNotification (Some "n1") "t" "A" "" high 0);
          OpQueueNotification
            (mkNotification (Some "n2") "t" "B" "" low 0)])
  = markNotificationsAsSent [Some "n1"]
      (run [OpQueueNotification
              (mkNotification (Some "n1") "t" "A" "" high 0);
            OpQueueNotification
              (mkNotification (Some "n2") "t" "B" "" low 0)]).
Proof.
  apply (proj1 (proj2 (proj2
           (markNotificationsAsSent_removes_exactly_idempotent
              [Some "n1"] _)))).
  intros n [Hn | [Hn | []]]; subst n; simpl; split; intros H;
    repeat (destruct H as [H | H]; try discriminate H); auto.
Defined.

(** *** What [generateNotifications] enqueues *)

Lemma queueNotification_perm (n : Notification) (s : Service) :
  Permutation (notificationQueue (queueNotification n s))
              (notificationQueue s ++ [n]).
Proof. simpl. apply jsSort_perm. Qed.

Lemma queue_reminders_perm (now : Z) (items : list string) (s : Service) :
  Permutation
    (notificationQueue
       (fold_left (fun st item => queueNotification (actionReminder now item) st)
                  items s))
    (notificationQueue s ++ map (actionReminder now) items).
Proof.
  revert s. induction items as [|item items IH]; intros s; simpl.
  - rewrite app_nil_r. apply Permutation_refl.
  - eapply perm_trans; [apply IH|].
    eapply perm_trans;
      [apply Permutation_app_tail, queueNotification_perm|].
    rewrite <- app_assoc. apply Permutation_refl.
Qed.

(** The reminders [generateNotifications] builds for the action items. *)
Lemma generateNotifications_perm (now : Z) (i : Insights) (s : Service) :
  Permutation
    (notificationQueue (generateNotifications now i s))
    (notificationQueue s
       ++ match actionItems i with
          | Some items => map (actionReminder now) items
          | None => []
          end
       ++ match sentiment i with
          | Some sent =>
              if scoreBelow sent then [encouragement now i] else []
          | None => []
          end).
Proof.
  unfold generateNotifications.
  set (s1 := match actionItems i with Some _ => _ | None => _ end).
  assert (H1 : Permutation (notificationQueue s1)
                 (notificationQueue s
                    ++ match actionItems i with
                       | Some items => map (actionReminder now) items
                       | None => []
                       end)).
  { subst s1. destruct (actionItems i) as [items|].
    - destruct items as [|item items].
      + simpl. rewrite app_nil_r. apply Permutation_refl.
      + change (0 <? List.length (item :: items))%nat with true.
        apply queue_reminders_perm.
    - rewrite app_nil_r. apply Permutation_refl. }
  destruct (sentiment i) as [sent|].
  - destruct (scoreBelow sent).
    + eapply perm_trans; [apply queueNotification_perm|].
      rewrite app_assoc. apply Permutation_app_tail, H1.
    + rewrite app_nil_r. exact H1.
  - rewrite app_nil_r. exact H1.
Qed.

Lemma scoreBelow_lt (sent : MentorUtils.Sentiment) :
  scoreBelow sent = true <-> (MentorUtils.score sent < JsNumber.number 0.3)%Q.
Proof.
  unfold scoreBelow. rewrite negb_true_iff.
  destruct (Qle_bool (JsNumber.number 0.3) (MentorUtils.score sent)) eqn:E.
  - apply Qle_bool_iff in E. split; [discriminate|].
    intros H. exfalso. exact (Qlt_not_le _ _ H E).
  - split; [intros _|reflexivity].
    apply Qnot_le_lt. intros H. apply Qle_bool_iff in H. congruence.
Qed.

(** C9. [generateNotifications] enqueues one reminder per action item
    whatever the sentiment, and the encouragement notification exactly
    when a sentiment is present with a score below 0.3. That notification
    has medium priority and is due 15 minutes after the call; called with
    a score of 0.2 and no action items on an empty queue, the queue holds
    that one notification. *)
Theorem generateNotifications_sentiment_below_threshold :
  forall (now : Z) (i : Insights) (s : Service),
    let reminders :=
      match actionItems i with
      | Some items => map (actionReminder now) items
      | None => []
      end in
    let s' := generateNotifications now i s in
    ((exists sent,
         sentiment i = Some sent
         /\ (MentorUtils.score sent < JsNumber.number 0.3)%Q) ->
     Permutation (notificationQueue s')
                 (notificationQueue s ++ reminders ++ [encouragement now i]))
    /\ (~ (exists sent,
             sentiment i = Some sent
             /\ (MentorUtils.score sent < JsNumber.number 0.3)%Q) ->
        Permutation (notificationQueue s') (notificationQueue s ++ reminders))
    /\ Forall (fun r => type r = "action_reminder") reminders
    /\ type (encouragement now i) = "encouragement"
    /\ priority (encouragement now i) = medium
    /\ triggerTime (encouragement now i) = (now + 15 * 60 * 1000)%Z
    /\ (forall topics label items questions,
          items = None \/ items = Some [] ->
          notificationQueue
            (generateNotifications now
               (mkInsights topics
                  (Some (MentorUtils.mkSentiment (JsNumber.number 0.2)
                                                 label)) items questions)
               constructor)
          = [encouragement now
               (mkInsights topics
                  (Some (MentorUtils.mkSentiment (JsNumber.number 0.2)
                                                 label)) items
                  questions)]).
Proof.
  intros now i s reminders s'.
  pose proof (generateNotifications_perm now i s) as Hperm.
  fold reminders s' in Hperm.
  split; [|split; [|split; [|split; [|split; [|split]]]]].
  - intros [sent [Hs Hlt]]. rewrite Hs in Hperm.
    apply scoreBelow_lt in Hlt. rewrite Hlt in Hperm. exact Hperm.
  - intros Hno. destruct (sentiment i) as [sent|].
    + destruct (scoreBelow sent) eqn:E.
      * exfalso. apply Hno. exists sent. split; [reflexivity|].
        apply scoreBelow_lt, E.
      * rewrite app_nil_r in Hperm. exact Hperm.
    + rewrite app_nil_r in Hperm. exact Hperm.
  - unfold reminders. destruct (actionItems i) as [items|]; [|constructor].
    apply Forall_forall. intros r Hr. apply in_map_iff in Hr.
    destruct Hr as [item [Hr _]]. subst r. reflexivity.
  - reflexivity.
  - reflexivity.
  - reflexivity.
  - intros topics label items questions [Hi | Hi]; subst items; reflexivity.
Qed.

(** The scenario of C9 at 09:00:00.000 of some day. *)
Lemma generateNotifications_sentiment_below_threshold_witness :
  notificationQueue
    (generateNotifications 32400000
       (mkInsights []
          (Some (MentorUtils.mkSentiment (JsNumber.number 0.2)
                                         "very negative"))
                   (Some []) [])
       constructor)
  = [encouragement 32400000
       (mkInsights []
          (Some (MentorUtils.mkSentiment (JsNumber.number 0.2)
                                         "very negative"))
                   (Some []) [])].
Proof.
  apply (proj2 (proj2 (proj2 (proj2 (proj2 (proj2
           (generateNotifications_sentiment_below_threshold
              32400000 (mkInsights [] None None []) constructor))))))).
  right. reflexivity.
Defined.




(** *** Ids in the queue *)

(** Every notification built by [generateNotifications] lacks an id. *)
Lemma generateNotifications_ids_undefined (now : Z) (i : Insights)
      (s : Service) (n : Notification) :
  In n (notificationQueue (generateNotifications now i s)) ->
  In n (notificationQueue s) \/ id n = None.
Proof.
  intros Hin.
  eapply Permutation_in in Hin; [|apply generateNotifications_perm].
  apply in_app_or in Hin. destruct Hin as [Hin | Hin]; [left; exact Hin|].
  right. apply in_app_or in Hin. destruct Hin as [Hin | Hin].
  - destruct (actionItems i) as [items|]; [|destruct Hin].
    apply in_map_iff in Hin. destruct Hin as [item [Hn _]].
    subst n. reflexivity.
  - destruct (sentiment i) as [sent|]; [|destruct Hin].
    destruct (scoreBelow sent); [|destruct Hin].
    destruct Hin as [Hn | []]. subst n. reflexivity.
Qed.

(** The factory of mentorUtils.js names a notification after the clock
    reading alone: two notifications built within one millisecond carry
    the same id. *)
Lemma generateNotification_id_of_clock (now : Z)
      (p1 p2 : option MentorUtils.UserProfile)
      (i1 i2 : option MentorUtils.Insight)
      (n1 n2 : MentorUtils.Notification) :
  MentorUtils.generateNotification now p1 i1 = Returns (Some n1) ->
  MentorUtils.generateNotification now p2 i2 = Returns (Some n2) ->
  MentorUtils.id n1 = MentorUtils.id n2.
Proof.
  assert (Hid : forall p i n,
             MentorUtils.generateNotification now p i = Returns (Some n) ->
             MentorUtils.id n = "notif-" ++ MentorUtils.numberToString now).
  { intros p i n. unfold MentorUtils.generateNotification.
    destruct i as [i|]; [|discriminate].
    destruct (String.eqb (MentorUtils.insightType i) ""); [discriminate|].
    assert (Hb : forall body,
               MentorUtils.notificationContent now i = Returns body ->
               MentorUtils.id body
               = "notif-" ++ MentorUtils.numberToString now).
    { intros body. unfold MentorUtils.notificationContent.
      repeat match goal with
             | |- context [if ?c then _ else _] => destruct c
             end;
        try destruct (MentorUtils.participants i);
        intros E; try discriminate E; injection E as <-; reflexivity. }
    destruct (MentorUtils.notificationContent now i) as [body|error];
      [|discriminate].
    specialize (Hb body eq_refl).
    assert (Hp : forall style,
               MentorUtils.id (MentorUtils.personalizeNotification body style)
               = MentorUtils.id body).
    { intros style. unfold MentorUtils.personalizeNotification.
      repeat match goal with
             | |- context [if ?c then _ else _] => destruct c
             end; reflexivity. }
    destruct p as [profile|].
    - destruct (MentorUtils.mentorStyle profile) as [style|].
      + destruct (String.eqb style "");
          intros E; injection E as <-; [|rewrite Hp]; exact Hb.
      + intros E; injection E as <-; exact Hb.
    - intros E; injection E as <-; exact Hb. }
  intros H1 H2. rewrite (Hid _ _ _ H1), (Hid _ _ _ H2). reflexivity.
Qed.

(** C5 fails on the code. Two conversations with a low sentiment score
    leave two notifications in the queue whose ids are equal: both are
    [undefined]. Marking the first as sent then removes the second too. *)
Theorem updateUserProfile_twice_equal_ids :
  exists n1 n2,
    notificationQueue
      (run [OpUpdateUserProfile 0
              (mkConversationData "This is bad." []
                 (Some (MentorUtils.mkSentiment (JsNumber.number 0.2)
                                                "very negative")));
            OpUpdateUserProfile 60000
              (mkConversationData "What a terrible day." []
                 (Some (MentorUtils.mkSentiment (JsNumber.number 0.1)
                                                "very negative")))])
    = [n1; n2]
    /\ triggerTime n1 <> triggerTime n2
    /\ id n1 = id n2
    /\ notificationQueue
         (run [OpUpdateUserProfile 0
                 (mkConversationData "This is bad." []
                    (Some (MentorUtils.mkSentiment (JsNumber.number 0.2)
                                                   "very negative")));
               OpUpdateUserProfile 60000
                 (mkConversationData "What a terrible day." []
                    (Some (MentorUtils.mkSentiment (JsNumber.number 0.1)
                                                   "very negative")));
               OpMarkNotificationsAsSent [id n1]])
       = [].
Proof.
  eexists. eexists. split; [reflexivity|].
  split; [discriminate|]. split; reflexivity.
Qed.

End QueueFacts.

(** ** The scheduler *)

Section SchedulerFacts.

Import NotificationService.

(** C6 fails on the code. [start] takes a stopped service to a running one
    with one more interval, which one [stop] cancels; but a second
    [start] registers a second interval and forgets the handle of the
    first, so that after [start], [start], [stop] the service reads as
    stopped while the first interval is still registered and keeps
    firing. *)
Theorem start_twice_leaks_interval :
  forall s : Service,
    isRunning (start s) = true
    /\ activeIntervals (timers (start s))
       = (activeIntervals (timers s) ++ [nextHandle (timers s)])%list
    /\ isRunning (stop (start (start s))) = false
    /\ In (nextHandle (timers s))
          (activeIntervals (timers (stop (start (start s)))))
    /\ activeIntervals
         (timers (stop (start (constructor (mentorService s))))) = []
    /\ activeIntervals
         (timers (stop (start (start (constructor (mentorService s))))))
       = [1%positive].
Proof.
  intros s. unfold start, stop, isRunning; simpl.
  split; [|split; [|split; [|split; [|split]]]]; try reflexivity.
  apply filter_In. split.
  - apply in_or_app. left. apply in_or_app. right. left. reflexivity.
  - apply negb_true_iff, Pos.eqb_neq. lia.
Qed.

Section TickFacts.

Variable Channel : Type.
Variable sendNotification :
  Channel -> MentorService.Notification -> Channel * bool.

Lemma sendLoop_attempts (pending : list MentorService.Notification) :
  forall (channel : Channel) (sent : list (option string))
         (log : list Event),
    snd (fst (sendLoop Channel sendNotification pending channel sent log))
    = (sent ++ Spec.successfulIds
                 (Spec.attempts Channel sendNotification pending channel))%list
    /\ snd (sendLoop Channel sendNotification pending channel sent log)
       = (log ++ map Spec.attemptEvent
                     (Spec.attempts Channel sendNotification pending
                                    channel))%list.
Proof.
  induction pending as [|n rest IH]; intros channel sent log; simpl.
  - rewrite !app_nil_r. split; reflexivity.
  - destruct (sendNotification channel n) as [channel' resolved].
    destruct (IH channel'
                 (if resolved then (sent ++ [MentorService.id n])%list
                  else sent)
                 (log ++ [Dispatch n resolved])%list) as [Hs Hl].
    rewrite Hs, Hl. unfold Spec.successfulIds. simpl.
    destruct resolved; simpl; rewrite <- !app_assoc; split; reflexivity.
Qed.

Lemma dispatchesOf_events (os : list (MentorService.Notification * bool)) :
  Spec.dispatchesOf (map Spec.attemptEvent os) = os
  /\ Spec.markSentCallsOf (map Spec.attemptEvent os) = [].
Proof.
  induction os as [|[n ok] os [IHd IHm]]; simpl; [split; reflexivity|].
  unfold Spec.dispatchesOf, Spec.markSentCallsOf in *. simpl.
  rewrite IHd, IHm. split; reflexivity.
Qed.

(** The log of a tick: nothing when nothing is pending; otherwise one
    attempt per pending notification, then one [markSent]. *)
Lemma checkAndSendNotifications_log (now : Z)
      (ms : MentorService.Service) (channel : Channel) :
  let pending := MentorService.getPendingNotifications now ms in
  let outcomes :=
    Spec.attempts Channel sendNotification pending channel in
  let result :=
    checkAndSendNotifications Channel sendNotification now ms channel in
  (pending = [] -> result = (ms, channel, []))
  /\ (pending <> [] ->
      snd result
      = (map Spec.attemptEvent outcomes ++ [MarkSent (Spec.successfulIds outcomes)])%list
      /\ fst (fst result)
         = MentorService.markNotificationsAsSent
             (Spec.successfulIds outcomes) ms).
Proof.
  intros pending outcomes result.
  unfold result, checkAndSendNotifications. fold pending.
  split.
  - intros E. rewrite E. reflexivity.
  - intros Hne. destruct pending as [|n rest] eqn:E; [congruence|].
    change (List.length (n :: rest) =? 0)%nat with false. cbv iota.
    destruct (sendLoop_attempts (n :: rest) channel [] []) as [Hs Hl].
    destruct (sendLoop Channel sendNotification (n :: rest) channel [] [])
      as [[channel' sent] log].
    simpl in Hs, Hl. subst sent log. simpl. split; reflexivity.
Qed.

End TickFacts.

(** C7, as stated, fails twice. On a tick with nothing pending
    [markSent] is not called at all, where the claim has one call per
    tick. And a failed notification does not stay queued when a
    notification that was sent carries the same id: of the two reminders
    [generateNotifications] has queued, both without an id, the first is
    sent and the second fails, and the queue is empty afterwards. *)
Lemma tick_contract_fails :
  ~ Spec.marksSentOnce unit (fun channel _ => (channel, true))
                       0 MentorService.constructor tt
  /\ ~ Spec.failedStayQueued nat
         (fun attempt _ => (S attempt, (attempt =? 0)%nat))
         3600000
         (MentorService.run
            [MentorService.OpGenerateNotifications 0
               (MentorService.mkInsights [] None
                  (Some ["call Bob"; "email Ann"]) [])])
         0%nat.
Proof.
  split.
  - unfold Spec.marksSentOnce. simpl. discriminate.
  - unfold Spec.failedStayQueued. intros H.
    specialize (H (MentorService.actionReminder 0 "email Ann")).
    simpl in H. apply H. right. left. reflexivity.
Qed.

(** C7, amended. On a tick with pending notifications every one of them
    is attempted, in order, whatever the outcomes of the others, and then
    [markSent] is called once, with the ids of the notifications that were
    sent; on a tick with nothing pending nothing is attempted, [markSent]
    is not called and the store is unchanged. A notification that failed
    and whose id is not the id of a notification sent in the same tick
    is still queued afterwards. *)
Theorem tick_attempts_all_marks_sent_once :
  forall (Channel : Type)
         (sendNotification :
            Channel -> MentorService.Notification -> Channel * bool)
         (now : Z) (ms : MentorService.Service) (channel : Channel),
    let pending := MentorService.getPendingNotifications now ms in
    let outcomes := Spec.attempts Channel sendNotification pending channel in
    let result :=
      checkAndSendNotifications Channel sendNotification now ms channel in
    Spec.dispatchesAll Channel sendNotification now ms channel
    /\ (pending <> [] ->
        Spec.marksSentOnce Channel sendNotification now ms channel
        /\ exists attempted,
            snd result
            = (attempted ++ [MarkSent (Spec.successfulIds outcomes)])%list
            /\ Spec.dispatchesOf attempted = outcomes)
    /\ (pending = [] -> result = (ms, channel, []))
    /\ (forall n,
          In (n, false) outcomes ->
          ~ In (MentorService.id n) (Spec.successfulIds outcomes) ->
          In n (MentorService.notificationQueue (fst (fst result)))).
Proof.
  intros Channel sendNotification now ms channel pending outcomes result.
  destruct (checkAndSendNotifications_log Channel sendNotification
                                          now ms channel) as [Hnil Hcons].
  fold pending outcomes result in Hnil, Hcons.
  assert (Hpending : forall n, In (n, false) outcomes -> In n pending).
  { unfold outcomes. clear. generalize channel.
    induction pending as [|m rest IH]; intros ch n; simpl; [tauto|].
    destruct (sendNotification ch m) as [ch' ok]. intros [E | Hin].
    - left. congruence.
    - right. eapply IH, Hin. }
  split; [|split; [|split]].
  - unfold Spec.dispatchesAll, Spec.tick. fold pending outcomes result.
    destruct pending as [|m rest] eqn:E.
    + rewrite Hnil by reflexivity. reflexivity.
    + destruct Hcons as [Hlog _]; [discriminate|]. rewrite Hlog.
      unfold Spec.dispatchesOf. rewrite flat_map_app. simpl.
      rewrite app_nil_r. apply dispatchesOf_events.
  - intros Hne. destruct (Hcons Hne) as [Hlog _]. split.
    + unfold Spec.marksSentOnce, Spec.tick. fold pending outcomes result.
      rewrite Hlog. unfold Spec.markSentCallsOf. rewrite flat_map_app.
      simpl.
      pose proof (proj2 (dispatchesOf_events outcomes)) as Hm.
      unfold Spec.markSentCallsOf in Hm. rewrite Hm. reflexivity.
    + eexists. split; [exact Hlog | apply dispatchesOf_events].
  - exact Hnil.
  - intros n Hfail Hid. destruct pending as [|m rest] eqn:E.
    + destruct (Hpending n Hfail).
    + destruct Hcons as [_ Hms]; [discriminate|]. rewrite Hms.
      simpl. apply filter_In. split.
      * specialize (Hpending n Hfail). rewrite <- E in Hpending.
        unfold pending, MentorService.getPendingNotifications in Hpending.
        apply filter_In in Hpending. apply Hpending.
      * apply negb_true_iff, idsInclude_false. exact Hid.
Qed.

(** An instance of the amended C7: two due notifications with ids of their
    own; the first fails, the second is sent; the first is still queued. *)
Lemma tick_attempts_all_marks_sent_once_witness :
  In (MentorService.mkNotification (Some "n1") "t" "A" "" high 0)
     (MentorService.notificationQueue
        (fst (fst (checkAndSendNotifications nat
                     (fun attempt _ => (S attempt, negb (attempt =? 0)%nat))
                     0
                     (MentorService.run
                        [MentorService.OpQueueNotification
                           (MentorService.mkNotification
                              (Some "n1") "t" "A" "" high 0);
                         MentorService.OpQueueNotification
                           (MentorService.mkNotification
                              (Some "n2") "t" "B" "" low 0)])
                     0%nat)))).
Proof.
  apply (proj2 (proj2 (proj2
           (tick_attempts_all_marks_sent_once nat
              (fun attempt _ => (S attempt, negb (attempt =? 0)%nat))
              0
              (MentorService.run
                 [MentorService.OpQueueNotification
                    (MentorService.mkNotification
                       (Some "n1") "t" "A" "" high 0);
                  MentorService.OpQueueNotification
                    (MentorService.mkNotification
                       (Some "n2") "t" "B" "" low 0)])
              0%nat)))).
  - simpl. left. reflexivity.
  - simpl. intros [H | []]. discriminate H.
Defined.

End SchedulerFacts.

(** ** The text analyzer *)

Section AnalyzerFacts.

Import JsString MentorUtils.

Lemma splitRuns_nonempty (sep : ascii -> bool) (s : string) :
  splitRuns sep s <> [].
Proof.
  induction s as [|c s IH]; simpl; [discriminate|].
  destruct (sep c).
  - destruct (headIs sep s); [exact IH | discriminate].
  - destruct (splitRuns sep s); discriminate.
Qed.

Lemma Qle_bool_false (a b : Q) : Qle_bool a b = false <-> (b < a)%Q.
Proof.
  split.
  - intros E. apply Qnot_le_lt. intros H. apply Qle_bool_iff in H.
    congruence.
  - intros H. destruct (Qle_bool a b) eqn:E; [|reflexivity].
    apply Qle_bool_iff in E. exfalso. exact (Qlt_not_le _ _ H E).
Qed.

Ltac qcase a b :=
  let E := fresh "E" in
  destruct (Qle_bool a b) eqn:E;
  [apply Qle_bool_iff in E | apply Qle_bool_false in E].

Ltac qcases :=
  repeat match goal with
         | |- context [Qle_bool ?a ?b] => qcase a b
         end.





Lemma number_thresholds_order :
  (0.25 < JsNumber.number 0.4)%Q /\ (JsNumber.number 0.4 < 0.5)%Q
  /\ (0.5 < JsNumber.number 0.6)%Q /\ (JsNumber.number 0.6 < 0.75)%Q.
Proof. repeat split; vm_compute; reflexivity. Qed.

(** The doubles that the literals 0.6, 0.4, 0.3 and 0.2 denote. *)
Lemma number_values :
  (JsNumber.number 0.6 == 5404319552844595 # 9007199254740992)%Q
  /\ (JsNumber.number 0.4 == 3602879701896397 # 9007199254740992)%Q
  /\ (JsNumber.number 0.3 == 5404319552844595 # 18014398509481984)%Q
  /\ (JsNumber.number 0.2 == 3602879701896397 # 18014398509481984)%Q.
Proof. repeat split; vm_compute; reflexivity. Qed.


(** *** The tokens of the specification are those of the code *)



Lemma string_app_nil_r (m : string) : m ++ "" = m.
Proof. induction m as [|c m IH]; simpl; [|rewrite IH]; reflexivity. Qed.

Lemma string_app_assoc (a b c : string) : (a ++ b) ++ c = a ++ b ++ c.
Proof. induction a as [|x a IH]; simpl; [|rewrite IH]; reflexivity. Qed.







Lemma ofNat_nonneg (n : nat) : (0 <= ofNat n)%Q.
Proof.
  unfold ofNat, Qle. simpl. lia.
Qed.

Lemma ratio_nonneg (n total : nat) : (0 <= ofNat n / ofNat total)%Q.
Proof.
  unfold Qdiv. apply Qmult_le_0_compat; [apply ofNat_nonneg|].
  apply Qinv_le_0_compat, ofNat_nonneg.
Qed.

Lemma ratio_zero (total : nat) : (ofNat 0 / ofNat total == 0)%Q.
Proof. unfold Qdiv. change (ofNat 0) with 0%Q. ring. Qed.






(** The score is the rounded one. Three positive and four negative
    keywords among ten tokens give 0.25 in exact arithmetic, the threshold
    of the label negative; the doubles give 0.2499999999999999, which is
    labelled very negative. *)
Lemma analyzeSentiment_rounds_below_threshold :
  (Spec.exactScore Spec.thresholdText == 0.25)%Q
  /\ (score (analyzeSentiment (Some Spec.thresholdText))
      == 2251799813685247 # 9007199254740992)%Q
  /\ label (analyzeSentiment (Some Spec.thresholdText)) = "very negative".
Proof. repeat split; vm_compute; reflexivity. Qed.

(** C3, as stated, fails: in the scenario no extracted action item begins
    with "finish the report". *)
Lemma scenario_action_item_keeps_its_phrase :
  ~ ((exists entry,
         In entry (extractActionItems (Some Spec.scenarioText))
         /\ startsWith "finish the report" entry = true)
     /\ (label (analyzeSentiment (Some Spec.scenarioText)) = "positive"
         \/ label (analyzeSentiment (Some Spec.scenarioText))
            = "very positive")
     /\ In "work" (identifyTopics (Some Spec.scenarioText)
                                  defaultMaxTopics)).
Proof.
  intros [[entry [Hin Hstart]] _].
  vm_compute in Hin. destruct Hin as [Hin | []]. subst entry.
  vm_compute in Hstart. discriminate Hstart.
Qed.

(** C3, amended. In the scenario the one action item is the whole first
    sentence, "I need to finish the report by tomorrow": it contains
    "finish the report" and begins with the action phrase, which is no
    filler word. The sentiment label is positive, the score being the
    double of 19/28, 0.6785714285714286, and the topics are exactly
    "work". *)
Theorem scenario_analysis :
  extractActionItems (Some Spec.scenarioText)
  = ["I need to finish the report by tomorrow"]
  /\ includes "I need to finish the report by tomorrow" "finish the report"
     = true
  /\ startsWith "I need to " "I need to finish the report by tomorrow" = true
  /\ label (analyzeSentiment (Some Spec.scenarioText)) = "positive"
  /\ (score (analyzeSentiment (Some Spec.scenarioText))
      == JsNumber.roundToDouble (19 # 28))%Q
  /\ (score (analyzeSentiment (Some Spec.scenarioText))
      == 3056014032858551 # 4503599627370496)%Q
  /\ identifyTopics (Some Spec.scenarioText) defaultMaxTopics = ["work"].
Proof.
  repeat split; vm_compute; reflexivity.
Qed.

(** C10. The filler words are removed as a bare prefix, with no word
    boundary behind them: whatever follows a leading "So" is kept and the
    "So" is dropped, so that the sentence "Someone will review the document
    tomorrow" is returned as "meone will review the document tomorrow" and
    not intact. *)
Theorem extractActionItems_strips_prefix_inside_word :
  extractActionItems (Some "Someone will review the document tomorrow")
  = ["meone will review the document tomorrow"]
  /\ ~ In "Someone will review the document tomorrow"
         (extractActionItems
            (Some "Someone will review the document tomorrow"))
  /\ (forall rest : string,
        removeLeadingAlt fillerWords ("So" ++ rest) = rest).
Proof.
  split; [vm_compute; reflexivity|]. split.
  - vm_compute. intros [H | []]. discriminate H.
  - intros rest. reflexivity.
Qed.

End AnalyzerFacts.

(** * Further properties of the code *)

(** ** Strings *)

Section StringFacts.

Import JsString.

Lemma lowerChar_idempotent (c : ascii) : lowerChar (lowerChar c) = lowerChar c.
Proof.
  destruct c as [[] [] [] [] [] [] [] []]; vm_compute; reflexivity.
Qed.

Lemma toLowerCase_idempotent (s : string) :
  toLowerCase (toLowerCase s) = toLowerCase s.
Proof.
  induction s as [|c s IH]; simpl; [reflexivity|].
  rewrite lowerChar_idempotent, IH. reflexivity.
Qed.

Lemma toLowerCase_app (a b : string) :
  toLowerCase (a ++ b) = toLowerCase a ++ toLowerCase b.
Proof.
  induction a as [|c a IH]; simpl; [reflexivity|]. rewrite IH. reflexivity.
Qed.

Lemma startsWith_app (p s : string) :
  startsWith p s = true <-> exists rest, s = p ++ rest.
Proof.
  revert s. induction p as [|a p IH]; intros s; simpl.
  - split; [intros _; exists s; reflexivity | reflexivity].
  - destruct s as [|b s]; simpl.
    + split; [discriminate | intros [rest H]; discriminate H].
    + rewrite andb_true_iff, Ascii.eqb_eq, IH. split.
      * intros [-> [rest ->]]. exists rest. reflexivity.
      * intros [rest H]. injection H as -> ->. split; [reflexivity|].
        exists rest. reflexivity.
Qed.

(** [s.includes(p)] holds exactly when [p] lies somewhere inside [s]. *)
Lemma includes_app (s p : string) :
  includes s p = true <-> exists before after, s = before ++ p ++ after.
Proof.
  induction s as [|c s IH].
  - simpl. rewrite orb_false_r, startsWith_app. split.
    + intros [rest H]. exists "", rest. exact H.
    + intros [before [after H]]. destruct before; [exists after; exact H|].
      discriminate H.
  - cbn [includes]. rewrite orb_true_iff, startsWith_app, IH. split.
    + intros [[rest H] | [before [after H]]].
      * exists "", rest. exact H.
      * exists (String c before), after. simpl. rewrite H. reflexivity.
    + intros [before [after H]]. destruct before as [|b before].
      * left. exists after. exact H.
      * right. simpl in H. injection H as -> ->.
        exists before, after. reflexivity.
Qed.

Lemma includes_inside (before s after p : string) :
  includes s p = true -> includes (before ++ s ++ after) p = true.
Proof.
  rewrite !includes_app. intros [b [a ->]].
  exists (before ++ b), (a ++ after).
  rewrite !string_app_assoc. reflexivity.
Qed.

(** A text that starts with a separator has an empty first piece. *)
Lemma splitRuns_leading_separator (sep : ascii -> bool) (s : string) :
  headIs sep s = true -> exists rest, splitRuns sep s = "" :: rest.
Proof.
  induction s as [|c s IH]; simpl; [discriminate|].
  intros Hc. rewrite Hc. destruct (headIs sep s).
  - apply IH. reflexivity.
  - eexists. reflexivity.
Qed.

(** The first piece of a split is where the text starts. *)
Lemma splitRuns_head (sep : ascii -> bool) (s : string) :
  exists piece rest after,
    splitRuns sep s = piece :: rest /\ s = piece ++ after.
Proof.
  induction s as [|c s [piece [rest [after [E H]]]]].
  - exists "", [], "". split; reflexivity.
  - destruct (sep c) eqn:Ec.
    + destruct (splitRuns_leading_separator sep (String c s) Ec) as [r Hr].
      exists "", r, (String c s). split; [exact Hr | reflexivity].
    + simpl. rewrite Ec, E.
      exists (String c piece), rest, after. split; [reflexivity|].
      simpl. rewrite H. reflexivity.
Qed.

(** Every piece of a split is a part of the text, and holds no
    separator. *)
Lemma splitRuns_pieces (sep : ascii -> bool) (s : string) :
  Forall (fun piece =>
            (exists before after, s = before ++ piece ++ after)
            /\ Props.anyChar sep piece = false)
         (splitRuns sep s).
Proof.
  induction s as [|c s IH]; simpl.
  - constructor; [|constructor]. split; [exists "", ""|]; reflexivity.
  - assert (Hshift :
              Forall (fun piece =>
                        (exists before after,
                            String c s = before ++ piece ++ after)
                        /\ Props.anyChar sep piece = false)
                     (splitRuns sep s)).
    { eapply Forall_impl; [|exact IH].
      intros piece [[before [after H]] Hsep]. split; [|exact Hsep].
      exists (String c before), after. simpl. rewrite H. reflexivity. }
    destruct (sep c) eqn:Ec.
    + destruct (headIs sep s); [exact Hshift|].
      constructor; [|exact Hshift].
      split; [exists "", (String c s)|]; reflexivity.
    + destruct (splitRuns_head sep s) as [piece [rest [after [E H]]]].
      rewrite E in *.
      destruct (Forall_inv IH) as [_ Hsep].
      constructor; [|exact (Forall_inv_tail Hshift)]. split.
      * exists "", after. simpl. rewrite <- H. reflexivity.
      * simpl. rewrite Ec. exact Hsep.
Qed.

Lemma anyChar_trimStart (f : ascii -> bool) (s : string) :
  Props.anyChar f s = false -> Props.anyChar f (trimStart s) = false.
Proof.
  induction s as [|c s IH]; simpl; [reflexivity|].
  intros H. apply orb_false_iff in H. destruct H as [Hc Hs].
  destruct (isWhiteSpace c); [apply IH, Hs|].
  simpl. rewrite Hc, Hs. reflexivity.
Qed.

Lemma anyChar_trimEnd (f : ascii -> bool) (s : string) :
  Props.anyChar f s = false -> Props.anyChar f (trimEnd s) = false.
Proof.
  induction s as [|c s IH]; simpl; [reflexivity|].
  intros H. apply orb_false_iff in H. destruct H as [Hc Hs].
  specialize (IH Hs). destruct (trimEnd s) as [|d r].
  - destruct (isWhiteSpace c); simpl; [reflexivity|].
    rewrite Hc. reflexivity.
  - cbn [Props.anyChar]. rewrite Hc. exact IH.
Qed.

Lemma anyChar_matchPrefixCI (f : ascii -> bool) (p s rest : string) :
  matchPrefixCI p s = Some rest ->
  Props.anyChar f s = false -> Props.anyChar f rest = false.
Proof.
  revert s. induction p as [|a p IH]; intros s; simpl.
  - intros E. injection E as ->. tauto.
  - destruct s as [|b s]; [discriminate|].
    destruct (eqCharCI a b); [|discriminate].
    intros E H. simpl in H. apply orb_false_iff in H.
    eapply IH; [exact E | apply H].
Qed.

Lemma anyChar_removeLeadingAlt (f : ascii -> bool) (alts : list string)
      (s : string) :
  Props.anyChar f s = false ->
  Props.anyChar f (removeLeadingAlt alts s) = false.
Proof.
  intros H. induction alts as [|p alts IH]; simpl; [exact H|].
  destruct (matchPrefixCI p s) as [rest|] eqn:E; [|exact IH].
  eapply anyChar_matchPrefixCI; eassumption.
Qed.

(** Trimming twice is trimming once. *)
Lemma trimEnd_idempotent (s : string) : trimEnd (trimEnd s) = trimEnd s.
Proof.
  induction s as [|c s IH]; simpl; [reflexivity|].
  destruct (trimEnd s) as [|d r] eqn:E.
  - destruct (isWhiteSpace c) eqn:Ec; simpl; [reflexivity|].
    rewrite Ec. reflexivity.
  - cbn [trimEnd]. cbn [trimEnd] in IH. rewrite IH. reflexivity.
Qed.

Lemma trimStart_trimEnd (s : string) :
  headIs isWhiteSpace s = false -> trimStart (trimEnd s) = trimEnd s.
Proof.
  destruct s as [|c s]; simpl; [reflexivity|].
  intros Hc. destruct (trimEnd s).
  - rewrite Hc. simpl. rewrite Hc. reflexivity.
  - simpl. rewrite Hc. reflexivity.
Qed.

Lemma trimStart_head (s : string) : headIs isWhiteSpace (trimStart s) = false.
Proof.
  induction s as [|c s IH]; simpl; [reflexivity|].
  destruct (isWhiteSpace c) eqn:Ec; [exact IH|]. simpl. exact Ec.
Qed.

Lemma trim_idempotent (s : string) : trim (trim s) = trim s.
Proof.
  unfold trim.
  rewrite (trimStart_trimEnd (trimStart s) (trimStart_head s)).
  apply trimEnd_idempotent.
Qed.

End StringFacts.

(** ** The text analyzer, further *)

Section AnalyzerMore.

Import JsString MentorUtils.

(** What the inner loop does with one sentence: nothing, or one new item
    at the end, cleaned from a sentence that holds an action phrase. *)
Lemma scanPhrases_cases (phrases : list string) (sentence : string)
      (items : list string) :
  scanPhrases phrases sentence items = items
  \/ (scanPhrases phrases sentence items
      = (items ++ [trim (removeLeadingAlt fillerWords (trim sentence))])%list
      /\ (10 < length (trim (removeLeadingAlt fillerWords (trim sentence))))%nat
      /\ ~ In (trim (removeLeadingAlt fillerWords (trim sentence))) items
      /\ exists phrase,
          In phrase phrases
          /\ includes (toLowerCase sentence) phrase = true).
Proof.
  induction phrases as [|phrase phrases IH]; cbn [scanPhrases];
    [left; reflexivity|].
  destruct (includes (toLowerCase sentence) phrase) eqn:Ei.
  - cbv zeta.
    set (item := trim (removeLeadingAlt fillerWords (trim sentence))).
    destruct (10 <? length item)%nat eqn:El; cbn [andb];
      [|left; reflexivity].
    destruct (arrayIncludes items item) eqn:Ea; cbn [negb];
      [left; reflexivity|].
    right. split; [reflexivity|]. split; [apply Nat.ltb_lt, El|]. split.
    + intros Hin. unfold arrayIncludes in Ea.
      assert (existsb (String.eqb item) items = true); [|congruence].
      apply existsb_exists. exists item. split; [exact Hin|].
      apply String.eqb_refl.
    + exists phrase. split; [left; reflexivity | exact Ei].
  - destruct IH as [IH | [IH [Hl [Hn [p [Hp Hi]]]]]]; [left; exact IH|].
    right. split; [exact IH|]. split; [exact Hl|]. split; [exact Hn|].
    exists p. split; [right; exact Hp | exact Hi].
Qed.

(** X1. For every text the action items are pairwise distinct, and each is
    longer than 10 characters, has no white space at either end and holds
    none of the sentence terminators [.], [!], [?]. *)
Theorem extractActionItems_distinct_trimmed_single_sentence :
  forall text : option string,
    NoDup (extractActionItems text)
    /\ Forall (fun item =>
                 (10 < length item)%nat
                 /\ trim item = item
                 /\ Props.anyChar isSentenceEnd item = false)
              (extractActionItems text).
Proof.
  intros [[|c t]|]; try (split; constructor).
  unfold extractActionItems.
  set (sentences := filter _ _).
  assert (Hs : Forall (fun s => Props.anyChar isSentenceEnd s = false)
                      sentences).
  { apply Forall_forall. intros s Hin. apply filter_In in Hin.
    destruct Hin as [Hin _].
    pose proof (splitRuns_pieces isSentenceEnd (String c t)) as Hp.
    rewrite Forall_forall in Hp. apply (Hp s Hin). }
  assert (Hgen : forall items,
             NoDup items
             /\ Forall (fun item =>
                          (10 < length item)%nat
                          /\ trim item = item
                          /\ Props.anyChar isSentenceEnd item = false)
                       items ->
             let r := fold_left (fun acc s => scanPhrases actionPhrases s acc)
                                sentences items in
             NoDup r
             /\ Forall (fun item =>
                          (10 < length item)%nat
                          /\ trim item = item
                          /\ Props.anyChar isSentenceEnd item = false)
                       r).
  { induction Hs as [|s rest Hsep Hrest IH]; intros items Hinv;
      cbv zeta; cbn [fold_left].
    - exact Hinv.
    - apply IH. destruct Hinv as [Hnd Hall].
      destruct (scanPhrases_cases actionPhrases s items)
        as [E | [E [Hl [Hn _]]]]; rewrite E; [split; assumption|].
      split.
      + apply NoDup_app; [exact Hnd | repeat constructor; intros [] |].
        intros x Hx [Hy | []]. subst x. exact (Hn Hx).
      + apply Forall_app. split; [exact Hall|].
        constructor; [|constructor].
        split; [exact Hl|]. split; [apply trim_idempotent|].
        apply anyChar_trimEnd, anyChar_trimStart, anyChar_removeLeadingAlt,
          anyChar_trimEnd, anyChar_trimStart, Hsep. }
  apply Hgen. split; constructor.
Qed.

(** X2. A text that holds none of the action phrases, in any case, has no
    action items. *)
Theorem extractActionItems_empty_without_phrase :
  forall text : string,
    (forall phrase, In phrase actionPhrases ->
                    includes (toLowerCase text) phrase = false) ->
    extractActionItems (Some text) = [].
Proof.
  intros text Hnone. destruct text as [|c t]; [reflexivity|].
  unfold extractActionItems.
  set (sentences := filter _ _).
  assert (Hs : Forall (fun s => exists before after,
                           String c t = before ++ s ++ after) sentences).
  { apply Forall_forall. intros s Hin. apply filter_In in Hin.
    destruct Hin as [Hin _].
    pose proof (splitRuns_pieces isSentenceEnd (String c t)) as Hp.
    rewrite Forall_forall in Hp. apply (Hp s Hin). }
  induction Hs as [|s rest [before [after Hsub]] Hrest IH];
    cbn [fold_left]; [reflexivity|].
  destruct (scanPhrases_cases actionPhrases s [])
    as [E | [_ [_ [_ [phrase [Hp Hi]]]]]]; [rewrite E; exact IH|].
  exfalso. specialize (Hnone phrase Hp).
  rewrite Hsub, !toLowerCase_app in Hnone.
  rewrite (includes_inside _ _ _ _ Hi) in Hnone. discriminate Hnone.
Qed.

(** An instance of X2: the second sentence of the analyzer scenario. *)
Lemma extractActionItems_empty_without_phrase_witness :
  extractActionItems (Some "It was a great meeting.") = [].
Proof.
  apply (extractActionItems_empty_without_phrase "It was a great meeting.").
  intros phrase Hin.
  repeat (destruct Hin as [<- | Hin]; [vm_compute; reflexivity|]).
  destruct Hin.
Defined.

(** Case analysis on one comparison of rationals, and on all of them. *)
Ltac qcase a b :=
  let E := fresh "E" in
  destruct (Qle_bool a b) eqn:E;
  [apply Qle_bool_iff in E | apply Qle_bool_false in E].

Ltac qcases :=
  repeat match goal with
         | |- context [Qle_bool ?a ?b] => qcase a b
         end.

(** X3. Sentiment and topics do not depend on the case of the text:
    lower-casing the text first changes neither result. *)
Theorem analysis_ignores_case :
  forall (text : string) (maxTopics : nat),
    analyzeSentiment (Some (toLowerCase text)) = analyzeSentiment (Some text)
    /\ identifyTopics (Some (toLowerCase text)) maxTopics
       = identifyTopics (Some text) maxTopics.
Proof.
  intros text maxTopics. destruct text as [|c t]; [split; reflexivity|].
  change (toLowerCase (String c t))
    with (String (lowerChar c) (toLowerCase t)).
  unfold analyzeSentiment, identifyTopics, tokens.
  change (String (lowerChar c) (toLowerCase t))
    with (toLowerCase (String c t)).
  rewrite toLowerCase_idempotent. split; reflexivity.
Qed.

(** X4. A text without negative keywords never scores below 0.5 and is
    labelled neutral or better; a text without positive keywords never
    scores above 0.5 and is labelled neutral or worse; a text with neither
    scores exactly 0.5 and is neutral. *)
Theorem analyzeSentiment_sign_of_keywords :
  forall text : string,
    let r := analyzeSentiment (Some text) in
    (countHits negativeWords (tokens text) = 0%nat ->
     (0.5 <= score r)%Q
     /\ (label r = "neutral" \/ label r = "positive"
         \/ label r = "very positive"))
    /\ (countHits positiveWords (tokens text) = 0%nat ->
        (score r <= 0.5)%Q
        /\ (label r = "neutral" \/ label r = "negative"
            \/ label r = "very negative"))
    /\ (countHits positiveWords (tokens text) = 0%nat ->
        countHits negativeWords (tokens text) = 0%nat ->
        r = mkSentiment 0.5 "neutral").
Proof.
  intros text. destruct text as [|c t].
  { cbv zeta. change (analyzeSentiment (Some "")) with (mkSentiment 0.5 "neutral").
    simpl. repeat split; solve [discriminate | left; reflexivity | reflexivity]. }
  cbv zeta. unfold analyzeSentiment.
  set (words := tokens (String c t)).
  set (p := countHits positiveWords words).
  set (n := countHits negativeWords words).
  set (total := List.length words).
  destruct (0 <? total)%nat eqn:Et.
  2:{ exfalso. apply Nat.ltb_ge in Et. unfold total, words, tokens in Et.
      pose proof (splitRuns_nonempty isNonWordChar
                    (toLowerCase (String c t))) as Hne.
      destruct (splitRuns isNonWordChar (toLowerCase (String c t)));
        [congruence | simpl in Et; lia]. }
  cbv zeta.
  set (pr := JsNumber.div (ofNat p) (ofNat total)).
  set (nr := JsNumber.div (ofNat n) (ofNat total)).
  assert (Hp : (0 <= pr)%Q) by apply roundToDouble_nonneg, ratio_nonneg.
  assert (Hn : (0 <= nr)%Q) by apply roundToDouble_nonneg, ratio_nonneg.
  set (x := JsNumber.add 0.5 (JsNumber.mul (JsNumber.sub pr nr) 2.5)).
  set (sc := if (0 <? p)%nat || (0 <? n)%nat
             then mathMax 0 (mathMin 1 x) else 0.5%Q).
  cbn [score label].
  destruct number_thresholds_order as [T1 [T2 [T3 T4]]].
  split; [|split].
  - intros Hn0.
    assert (Hnr : nr = 0%Q).
    { unfold nr. rewrite Hn0. apply roundToDouble_zero, ratio_zero. }
    assert (Hx : (0.5 <= x)%Q).
    { assert (Hd : (0 <= JsNumber.sub pr nr)%Q).
      { apply roundToDouble_nonneg. rewrite Hnr. lra. }
      assert (Hm : (0 <= JsNumber.mul (JsNumber.sub pr nr) 2.5)%Q).
      { apply roundToDouble_nonneg. nra. }
      assert (Hh : (1 # 2 <= x)%Q).
      { apply roundToDouble_ge_half. lra. }
      lra. }
    assert (Hsc : (0.5 <= sc)%Q).
    { unfold sc. destruct ((0 <? p)%nat || (0 <? n)%nat); [|lra].
      unfold mathMax, mathMin.
      qcase 1%Q x; qcases; lra. }
    split; [exact Hsc|].
    qcase 0.75%Q sc; [right; right; reflexivity|].
    qcase (JsNumber.number 0.6) sc; [right; left; reflexivity|].
    qcase (JsNumber.number 0.4) sc; [left; reflexivity | lra].
  - intros Hp0.
    assert (Hpr : pr = 0%Q).
    { unfold pr. rewrite Hp0. apply roundToDouble_zero, ratio_zero. }
    assert (Hx : (x <= 0.5)%Q).
    { assert (Hd : (JsNumber.sub pr nr <= 0)%Q).
      { apply roundToDouble_nonpos. rewrite Hpr. lra. }
      assert (Hm : (JsNumber.mul (JsNumber.sub pr nr) 2.5 <= 0)%Q).
      { apply roundToDouble_nonpos. nra. }
      assert (Hh : (x <= 1 # 2)%Q).
      { apply roundToDouble_le_half. lra. }
      lra. }
    assert (Hsc : (sc <= 0.5)%Q).
    { unfold sc. destruct ((0 <? p)%nat || (0 <? n)%nat); [|lra].
      unfold mathMax, mathMin.
      qcase 1%Q x; qcases; lra. }
    split; [exact Hsc|].
    qcase 0.75%Q sc; [lra|].
    qcase (JsNumber.number 0.6) sc; [lra|].
    qcase (JsNumber.number 0.4) sc; [left; reflexivity|].
    qcase 0.25%Q sc; [right; left | right; right]; reflexivity.
  - intros Hp0 Hn0. unfold sc. rewrite Hp0, Hn0. reflexivity.
Qed.

(** An instance of X4: no keyword at all, and one positive keyword. *)
Lemma analyzeSentiment_sign_of_keywords_witness :
  analyzeSentiment (Some "See you on Monday") = mkSentiment 0.5 "neutral"
  /\ (0.5 <= score (analyzeSentiment (Some "What a great day")))%Q.
Proof.
  split.
  - apply (proj2 (proj2 (analyzeSentiment_sign_of_keywords
                           "See you on Monday"))); vm_compute; reflexivity.
  - apply (proj1 (analyzeSentiment_sign_of_keywords "What a great day")).
    vm_compute. reflexivity.
Defined.

(** *** Topics *)

Lemma ownProperty_In {V : Type} (object : list (string * V)) (k : string)
      (v : V) :
  NoDup (map fst object) -> In (k, v) object -> ownProperty object k = Some v.
Proof.
  induction object as [|[k' v'] object IH]; simpl; [tauto|].
  intros Hnd [E | Hin].
  - injection E as -> ->. rewrite String.eqb_refl. reflexivity.
  - inversion Hnd as [|? ? Hnotin Hnd']; subst.
    destruct (String.eqb k' k) eqn:Ek.
    + apply String.eqb_eq in Ek. subst k'. exfalso. apply Hnotin.
      apply in_map_iff. exists (k, v). split; [reflexivity | exact Hin].
    + apply IH; assumption.
Qed.

Lemma ownProperty_Some {V : Type} (object : list (string * V)) (k : string)
      (v : V) :
  ownProperty object k = Some v -> In (k, v) object.
Proof.
  induction object as [|[k' v'] object IH]; simpl; [discriminate|].
  destruct (String.eqb k' k) eqn:Ek.
  - apply String.eqb_eq in Ek. intros E. injection E as ->. subst.
    left. reflexivity.
  - intros E. right. apply IH, E.
Qed.

Lemma topicKeywords_keys_distinct : NoDup (map fst topicKeywords).
Proof.
  simpl.
  repeat (constructor; [simpl; intuition discriminate|]). constructor.
Qed.

Lemma topicScores_keys (lowerText : string) :
  map fst (topicScores lowerText) = map fst topicKeywords.
Proof. unfold topicScores. rewrite map_map. reflexivity. Qed.

Lemma NoDup_map_filter {A B : Type} (f : A -> B) (g : A -> bool)
      (l : list A) :
  NoDup (map f l) -> NoDup (map f (filter g l)).
Proof.
  induction l as [|x l IH]; simpl; [tauto|].
  intros Hnd. inversion Hnd as [|? ? Hnotin Hnd']; subst.
  destruct (g x); simpl; [|apply IH, Hnd'].
  constructor; [|apply IH, Hnd'].
  intros Hin. apply Hnotin. apply in_map_iff in Hin.
  destruct Hin as [y [Hy Hin]]. apply filter_In in Hin.
  apply in_map_iff. exists y. split; [exact Hy | apply Hin].
Qed.

Lemma StronglySorted_firstn {A : Type} (R : A -> A -> Prop) (n : nat)
      (l : list A) :
  StronglySorted R l -> StronglySorted R (firstn n l).
Proof.
  intros Hs. revert n. induction Hs as [|x l Hs IH Hall]; intros n.
  - rewrite firstn_nil. constructor.
  - destruct n; simpl; constructor; [apply IH|].
    apply Forall_forall. intros y Hy. rewrite Forall_forall in Hall.
    apply Hall. eapply (In_nth_error) in Hy. destruct Hy as [i Hy].
    eapply nth_error_In. rewrite <- (firstn_skipn n l).
    rewrite nth_error_app1; [exact Hy|].
    apply nth_error_Some. congruence.
Qed.

Lemma StronglySorted_map {A B : Type} (R : A -> A -> Prop)
      (S : B -> B -> Prop) (f : A -> B) (l : list A) :
  (forall a b, In a l -> In b l -> R a b -> S (f a) (f b)) ->
  StronglySorted R l -> StronglySorted S (map f l).
Proof.
  intros HRS Hs. induction Hs as [|x l Hs IH Hall]; simpl; constructor.
  - apply IH. intros a b Ha Hb. apply HRS; right; assumption.
  - apply Forall_forall. intros y Hy. apply in_map_iff in Hy.
    destruct Hy as [a [<- Ha]]. rewrite Forall_forall in Hall.
    apply HRS; [left; reflexivity | right; exact Ha | apply Hall, Ha].
Qed.

(** The ranked entries behind [identifyTopics]. *)
Lemma identifyTopics_ranked (text : string) :
  exists ranked,
    (forall maxTopics,
        identifyTopics (Some text) maxTopics
        = firstn maxTopics (map fst ranked))
    /\ NoDup (map fst ranked)
    /\ (List.length ranked <= 10)%nat
    /\ (forall topic v,
           In (topic, v) ranked <->
           (0 < v)%nat
           /\ ownProperty (topicScores (toLowerCase text)) topic = Some v)
    /\ StronglySorted (fun a b => (snd b <= snd a)%nat) ranked.
Proof.
  destruct text as [|c t].
  - exists []. split; [intros m; rewrite firstn_nil; reflexivity|].
    split; [constructor|]. split; [simpl; lia|]. split; [|constructor].
    intros topic v. split; [intros []|]. intros [Hv Ho].
    apply ownProperty_Some in Ho. vm_compute in Ho.
    repeat (destruct Ho as [Ho | Ho];
            [injection Ho as _ <-; inversion Hv|]).
    destruct Ho.
  - set (lower := toLowerCase (String c t)).
    set (entries := filter (fun entry => (0 <? snd entry)%nat)
                           (topicScores lower)).
    exists (jsSort byScoreDesc entries).
    pose proof (jsSort_perm byScoreDesc entries) as Hperm.
    assert (Hkeys : NoDup (map fst (topicScores lower))).
    { rewrite topicScores_keys. apply topicKeywords_keys_distinct. }
    split; [intros m; reflexivity|]. split; [|split; [|split]].
    + eapply Permutation_NoDup;
        [apply Permutation_map, Permutation_sym, Hperm|].
      apply NoDup_map_filter, Hkeys.
    + rewrite (Permutation_length Hperm). unfold entries.
      eapply Nat.le_trans; [apply filter_length_le|].
      unfold topicScores. rewrite length_map. simpl. lia.
    + intros topic v. rewrite jsSort_In. unfold entries.
      rewrite filter_In. cbn [snd]. rewrite Nat.ltb_lt. split.
      * intros [Hin Hv]. split; [exact Hv|].
        apply ownProperty_In; assumption.
      * intros [Hv Ho]. split; [apply ownProperty_Some, Ho | exact Hv].
    + eapply StronglySorted_impl; [|apply jsSort_sorted].
      * intros a b. unfold cmpLe, byScoreDesc. lia.
      * intros a b. unfold byScoreDesc. lia.
      * intros a b d. unfold cmpLe, byScoreDesc. lia.
Qed.

(** X5. [identifyTopics] returns at most [maxTopics] topics, and at most
    ten; they are pairwise distinct, each is one of the ten topics of the
    table, and each has at least one keyword match in the text. *)
Theorem identifyTopics_bounded_distinct_matched :
  forall (text : string) (maxTopics : nat),
    let topics := identifyTopics (Some text) maxTopics in
    (List.length topics <= maxTopics)%nat
    /\ (List.length topics <= 10)%nat
    /\ NoDup topics
    /\ Forall (fun topic =>
                 In topic (map fst topicKeywords)
                 /\ (0 < Props.scoreOf (toLowerCase text) topic)%nat)
              topics.
Proof.
  intros text m topics.
  destruct (identifyTopics_ranked text)
    as [ranked [Hid [Hnd [Hlen [Hin Hsorted]]]]].
  unfold topics. rewrite Hid.
  split; [apply firstn_le_length|]. split; [|split].
  - rewrite length_firstn, length_map. lia.
  - rewrite <- (firstn_skipn m (map fst ranked)) in Hnd.
    apply NoDup_app_remove_r in Hnd. exact Hnd.
  - apply Forall_forall. intros topic Ht.
    assert (Ht' : In topic (map fst ranked)).
    { rewrite <- (firstn_skipn m (map fst ranked)).
      apply in_or_app. left. exact Ht. }
    apply in_map_iff in Ht'. destruct Ht' as [[k v] [Hk Hkv]].
    cbn [fst] in Hk. subst k. apply Hin in Hkv. destruct Hkv as [Hv Ho].
    split.
    + rewrite <- topicScores_keys with (lowerText := toLowerCase text).
      apply in_map_iff. exists (topic, v).
      split; [reflexivity | apply ownProperty_Some, Ho].
    + unfold Props.scoreOf. rewrite Ho. exact Hv.
Qed.

(** X6. The topics come in non-increasing order of their number of
    keyword matches; a larger [maxTopics] only appends to the result; and
    with [maxTopics] at ten or more the result holds exactly the topics
    with at least one match. *)
Theorem identifyTopics_ranked_by_matches :
  forall (text : string) (maxTopics more : nat),
    StronglySorted
      (fun a b => (Props.scoreOf (toLowerCase text) b
                   <= Props.scoreOf (toLowerCase text) a)%nat)
      (identifyTopics (Some text) maxTopics)
    /\ identifyTopics (Some text) maxTopics
       = firstn maxTopics (identifyTopics (Some text) (maxTopics + more))
    /\ (forall topic,
          In topic (identifyTopics (Some text) (10 + more)) <->
          (0 < Props.scoreOf (toLowerCase text) topic)%nat).
Proof.
  intros text m more.
  destruct (identifyTopics_ranked text)
    as [ranked [Hid [Hnd [Hlen [Hin Hsorted]]]]].
  rewrite !Hid. split; [|split].
  - apply StronglySorted_firstn.
    eapply StronglySorted_map; [|exact Hsorted].
    intros [ka va] [kb vb] Ha Hb Hle. cbn [fst snd] in *.
    apply Hin in Ha, Hb. unfold Props.scoreOf.
    rewrite (proj2 Ha), (proj2 Hb). exact Hle.
  - rewrite firstn_firstn. f_equal. lia.
  - intros topic. rewrite firstn_all2 by (rewrite length_map; lia).
    unfold Props.scoreOf. split.
    + intros Ht. apply in_map_iff in Ht. destruct Ht as [[k v] [Hk Hkv]].
      cbn [fst] in Hk. subst k. apply Hin in Hkv. rewrite (proj2 Hkv).
      apply Hkv.
    + destruct (ownProperty (topicScores (toLowerCase text)) topic)
        as [v|] eqn:Ho; [|lia].
      intros Hv. apply in_map_iff. exists (topic, v).
      split; [reflexivity | apply Hin; split; assumption].
Qed.

End AnalyzerMore.

(** ** The notification factory and the delivery-time policy *)

Section FactoryFacts.

Import JsString MentorUtils.

Lemma includes_self_prefixed (prefix m : string) :
  includes (prefix ++ m) m = true.
Proof.
  apply includes_app. exists prefix, "".
  rewrite string_app_nil_r. reflexivity.
Qed.

Lemma includes_self_suffixed (m suffix : string) :
  includes (m ++ suffix) m = true.
Proof. apply includes_app. exists "", suffix. reflexivity. Qed.

Lemma includes_self (m : string) : includes m m = true.
Proof.
  apply includes_app. exists "", "".
  rewrite string_app_nil_r. reflexivity.
Qed.

(** The decoration touches the message only, and keeps what was there. *)
Lemma personalizeNotification_decorates (n : Notification) (style : string) :
  let n' := personalizeNotification n style in
  id n' = id n /\ timestamp n' = timestamp n /\ read n' = read n
  /\ priority n' = priority n /\ title n' = title n
  /\ includes (message n') (message n) = true.
Proof.
  unfold personalizeNotification.
  repeat match goal with
         | |- context [if ?c then _ else _] => destruct c
         end; cbv zeta; cbn [id timestamp read priority title message setMessage];
    repeat split;
    solve [ apply includes_self_prefixed | apply includes_self_suffixed
          | apply includes_self ].
Qed.

(** What the [switch] returns carries the id of the clock reading, and
    it throws for nothing but a meeting preparation without
    participants. *)
Lemma notificationContent_cases (now : Z) (i : Insight) :
  match notificationContent now i with
  | Returns body =>
      id body = "notif-" ++ numberToString now
      /\ timestamp body = now /\ read body = false
      /\ (toLowerCase (insightType i) = "meeting_prep" ->
          participants i <> None)
  | Throws error =>
      error = "TypeError"
      /\ toLowerCase (insightType i) = "meeting_prep"
      /\ participants i = None
  end.
Proof.
  unfold notificationContent.
  destruct (String.eqb (toLowerCase (insightType i)) "action_item") eqn:E1.
  { apply String.eqb_eq in E1. rewrite E1.
    repeat split. discriminate. }
  destruct (String.eqb (toLowerCase (insightType i)) "meeting_prep") eqn:E2.
  { apply String.eqb_eq in E2.
    destruct (participants i); repeat split;
      solve [assumption | discriminate]. }
  apply String.eqb_neq in E2.
  repeat match goal with
         | |- context [if ?c then _ else _] => destruct c
         end; repeat split; intros H; contradiction.
Qed.

(** X7. [generateNotification] returns null exactly when the insight is
    missing or has no type, and throws a [TypeError] exactly when the
    insight is a meeting preparation without participants, in both cases
    whatever the profile. Otherwise the profile, through its mentor style,
    only decorates the message: the id, the time stamp, the unread flag,
    the priority and the title are those of the notification built without
    a profile, and the message built without a profile is still part of
    the decorated one. *)
Theorem generateNotification_style_only_decorates :
  forall (now : Z) (profile : option UserProfile) (insight : option Insight),
    match generateNotification now profile insight,
          generateNotification now None insight with
    | Returns (Some n), Returns (Some plain) =>
        (exists i,
            insight = Some i /\ insightType i <> ""
            /\ (toLowerCase (insightType i) = "meeting_prep" ->
                participants i <> None))
        /\ id n = "notif-" ++ numberToString now
        /\ timestamp n = now /\ read n = false
        /\ id n = id plain /\ priority n = priority plain
        /\ title n = title plain
        /\ includes (message n) (message plain) = true
    | Returns None, Returns None =>
        insight = None \/ exists i, insight = Some i /\ insightType i = ""
    | Throws error, Throws error' =>
        error = "TypeError" /\ error' = "TypeError"
        /\ exists i,
            insight = Some i /\ insightType i <> ""
            /\ toLowerCase (insightType i) = "meeting_prep"
            /\ participants i = None
    | _, _ => False
    end.
Proof.
  intros now profile insight. unfold generateNotification.
  destruct insight as [i|]; [|left; reflexivity].
  destruct (String.eqb (insightType i) "") eqn:Et.
  { right. exists i. split; [reflexivity | apply String.eqb_eq, Et]. }
  apply String.eqb_neq in Et.
  pose proof (notificationContent_cases now i) as Hc.
  destruct (notificationContent now i) as [body|error].
  2:{ destruct Hc as [He [Hk Hp]]. split; [exact He|]. split; [exact He|].
      exists i. repeat split; assumption. }
  destruct Hc as [Hid [Hts [Hrd Hps]]].
  assert (Hplain :
            (exists i0,
                Some i = Some i0 /\ insightType i0 <> ""
                /\ (toLowerCase (insightType i0) = "meeting_prep" ->
                    participants i0 <> None))
            /\ id body = "notif-" ++ numberToString now
            /\ timestamp body = now /\ read body = false
            /\ id body = id body /\ priority body = priority body
            /\ title body = title body
            /\ includes (message body) (message body) = true).
  { split; [exists i; split; [reflexivity | split; assumption]|].
    repeat split; try assumption. apply includes_self. }
  destruct profile as [p|]; [|exact Hplain].
  destruct (mentorStyle p) as [style|]; [|exact Hplain].
  destruct (String.eqb style ""); [exact Hplain|].
  destruct (personalizeNotification_decorates body style)
    as [Pid [Pts [Prd [Ppr [Pti Pms]]]]].
  split; [exists i; split; [reflexivity | split; assumption]|].
  rewrite Pid, Pts, Prd, Ppr, Pti. repeat split; assumption.
Qed.

(** X8. The priority table of the factory, read backwards: a notification
    is of high priority exactly for a meeting preparation or an action item
    of high urgency, and of low priority exactly for a learning or social
    insight or an action item of low urgency; the type is matched without
    regard to case. *)
Theorem generateNotification_priority_table :
  forall (now : Z) (profile : option UserProfile) (i : Insight)
         (n : Notification),
    generateNotification now profile (Some i) = Returns (Some n) ->
    (priority n = high <->
     toLowerCase (insightType i) = "meeting_prep"
     \/ (toLowerCase (insightType i) = "action_item"
         /\ urgency i = Some high))
    /\ (priority n = low <->
        toLowerCase (insightType i) = "learning"
        \/ toLowerCase (insightType i) = "social"
        \/ (toLowerCase (insightType i) = "action_item"
            /\ urgency i = Some low)).
Proof.
  intros now profile i n. unfold generateNotification.
  destruct (String.eqb (insightType i) ""); [discriminate|].
  destruct (notificationContent now i) as [body|error] eqn:Hbody;
    [|discriminate].
  intros Hgen.
  assert (Hn : priority n = priority body).
  { destruct profile as [p|]; [|injection Hgen as <-; reflexivity].
    destruct (mentorStyle p) as [style|];
      [|injection Hgen as <-; reflexivity].
    destruct (String.eqb style ""); injection Hgen as <-; [reflexivity|].
    apply personalizeNotification_decorates. }
  rewrite Hn. clear Hn Hgen. revert Hbody. unfold notificationContent.
  remember (toLowerCase (insightType i)) as kind eqn:Hkind. clear Hkind.
  set (base := mkNotification _ now false).
  destruct (String.eqb kind "action_item") eqn:E1;
    [|destruct (String.eqb kind "meeting_prep") eqn:E2;
      [destruct (participants i)
      |destruct (String.eqb kind "focus_time") eqn:E3;
        [|destruct (String.eqb kind "wellbeing") eqn:E4;
          [|destruct (String.eqb kind "learning") eqn:E5;
            [|destruct (String.eqb kind "social") eqn:E6]]]]];
    intros Hbody; try discriminate Hbody; injection Hbody as <-;
    repeat match goal with
           | H : String.eqb _ _ = true |- _ => apply String.eqb_eq in H
           | H : String.eqb _ _ = false |- _ => apply String.eqb_neq in H
           end;
    cbn [priority base];
    try (destruct (urgency i) as [[]|]);
    split; split; intros H;
      solve [ discriminate H
            | intuition congruence
            | subst kind; intuition (try discriminate; congruence) ].
Qed.

(** An instance of X8: a meeting preparation, typed in capitals, for a
    profile with a mentor style. *)
Lemma generateNotification_priority_table_witness :
  priority
    (mkNotification "notif-0" 0 false high "Meeting Preparation"
       "Analysis: You have a meeting with Ann in 5 minutes. ")
  = high
  <-> toLowerCase "MEETING_PREP" = "meeting_prep"
      \/ (toLowerCase "MEETING_PREP" = "action_item" /\ None = Some high).
Proof.
  apply (proj1 (generateNotification_priority_table
                  0 (Some (mkUserProfile (Some "Analytical Guide")))
                  (mkInsight "MEETING_PREP" "" None (Some ["Ann"]) 5 None
                             "" 0 "" "")
                  _ eq_refl)).
Defined.



(** Across a change of the offset the bounds do not hold. In Central
    Europe on 26 October 2025 at 02:50 local time, after the clocks went
    back, the wall clock five minutes ahead reads 02:55, a time that
    occurred an hour before as well and is read as that earlier one: a
    notification of medium priority gets a delivery time 55 minutes
    before [now]. *)
Lemma calculateOptimalDeliveryTime_when_clocks_go_back :
  forall (profile : UserProfile) (n : Notification),
    priority n = medium ->
    calculateOptimalDeliveryTime Spec.centralEurope2025
      (1761440400000 + 50 * 60000) (Some profile) (Some n)
    = (1761440400000 + 50 * 60000 - 55 * 60000)%Z.
Proof.
  intros profile n Hn. unfold calculateOptimalDeliveryTime. rewrite Hn.
  vm_compute. reflexivity.
Qed.

(** X10. The context of a conversation whose sentiment comes from
    [analyzeSentiment] always names emotions, two or three of them: every
    label the analyzer can give is a key of the emotion table. The people
    of the context are the participants other than "You", and no location
    or time reference is ever extracted. *)
Theorem extractContext_of_analyzed_conversation :
  forall (text : option string) (participants : option (list string)),
    exists ctx emotionList,
      extractContext
        (Some (mkConversationData participants (Some (analyzeSentiment text))))
      = Some ctx
      /\ emotions ctx = Some emotionList
      /\ (2 <= List.length emotionList <= 3)%nat
      /\ ~ In "You" (people ctx)
      /\ (forall p, In p (people ctx) <->
                    p <> "You"
                    /\ exists ps, participants = Some ps /\ In p ps)
      /\ location ctx = [] /\ timeReferences ctx = [].
Proof.
  intros text participants.
  assert (Hlabel : In (label (analyzeSentiment text))
                      [ "very positive"; "positive"; "neutral"; "negative";
                        "very negative" ]).
  { destruct text as [[|c t]|]; try (right; right; left; reflexivity).
    unfold analyzeSentiment. cbv zeta. cbn [label].
    repeat match goal with
           | |- context [if Qle_bool ?a ?b then _ else _] =>
               destruct (Qle_bool a b)
           end; simpl; tauto. }
  assert (Hpeople : forall p,
             In p (extractPeople
                     (Some (mkConversationData participants
                              (Some (analyzeSentiment text))))) <->
             p <> "You" /\ exists ps, participants = Some ps /\ In p ps).
  { intros p. unfold extractPeople. cbn [conversationParticipants].
    destruct participants as [ps|].
    - rewrite filter_In, negb_true_iff, String.eqb_neq. split.
      + intros [Hin Hne]. split; [exact Hne|]. exists ps. split; trivial.
      + intros [Hne [ps' [E Hin]]]. injection E as <-. split; assumption.
    - split; [intros [] | intros [_ [ps [E _]]]; discriminate E]. }
  unfold extractContext, extractEmotions.
  cbn [conversationSentiment].
  set (lbl := label (analyzeSentiment text)) in *.
  assert (Hemo : exists l,
             ownProperty sentimentToEmotions lbl = Some l
             /\ (2 <= List.length l <= 3)%nat).
  { simpl in Hlabel.
    repeat (destruct Hlabel as [<- | Hlabel];
            [eexists; split; [reflexivity | simpl; lia]|]).
    destruct Hlabel. }
  destruct Hemo as [l [Hl Hlen]]. rewrite Hl.
  eexists. exists l. split; [reflexivity|]. cbn [emotions people location
                                                  timeReferences].
  split; [reflexivity|]. split; [exact Hlen|]. split.
  - intros Hin. apply Hpeople in Hin. destruct Hin as [Hne _].
    apply Hne. reflexivity.
  - split; [exact Hpeople|]. split; reflexivity.
Qed.

End FactoryFacts.

(** ** The store, further *)

Section SortStable.

Context {A : Type}.
Variable cmp : A -> A -> Z.
Hypothesis cmp_trans :
  forall a b c, cmpLe cmp a b -> cmpLe cmp b c -> cmpLe cmp a c.

Lemma insertSorted_first (a : A) (l : list A) :
  Forall (cmpLe cmp a) l -> insertSorted cmp a l = a :: l.
Proof.
  destruct l as [|b l]; [reflexivity|]. intros H. simpl.
  apply Forall_inv in H. unfold cmpLe in H.
  apply Z.leb_le in H. rewrite H. reflexivity.
Qed.

(** Sorting a sorted array with one element pushed at its end: the element
    goes behind everything that may stand before it, and the rest keeps its
    place. *)
Lemma jsSort_push_sorted (l : list A) (x : A) :
  StronglySorted (cmpLe cmp) l ->
  exists before after,
    l = (before ++ after)%list
    /\ jsSort cmp (l ++ [x]) = (before ++ x :: after)%list
    /\ Forall (fun a => (cmp a x <= 0)%Z) before
    /\ Forall (fun a => (0 < cmp a x)%Z) after.
Proof.
  induction 1 as [|a l Hs IH Hall].
  - exists [], []. repeat split; constructor.
  - destruct IH as [before [after [El [Es [Hb Ha]]]]].
    simpl. rewrite Es. destruct before as [|b before].
    + simpl in *. subst l. destruct (cmp a x <=? 0)%Z eqn:E.
      * exists [a], after. apply Z.leb_le in E.
        repeat split; [constructor; [exact E | constructor] | exact Ha].
      * exists [], (a :: after). apply Z.leb_gt in E.
        rewrite (insertSorted_first a after Hall).
        repeat split; [constructor | constructor; assumption].
    + exists (a :: b :: before), after. subst l.
      assert (Hab : cmpLe cmp a b) by (apply (Forall_inv Hall)).
      simpl. pose proof Hab as Hab'. unfold cmpLe in Hab'.
      apply Z.leb_le in Hab'. rewrite Hab'.
      repeat split; [|exact Ha].
      constructor; [|exact Hb].
      apply (cmp_trans a b x Hab). exact (Forall_inv Hb).
Qed.

End SortStable.

Section StoreMore.

Import MentorService.

Lemma queueSorted_cmpLe (s : Service) :
  Spec.queueSorted s ->
  StronglySorted (cmpLe compareNotifications) (notificationQueue s).
Proof.
  apply StronglySorted_impl. intros a b.
  apply compareNotifications_deliveryOrder.
Qed.

(** X11. In a state the store has reached, [queueNotification] puts the
    new notification behind every queued notification that the delivery
    order lets stand before it, those of equal priority and trigger time
    included (first in, first out), and strictly before all the others; the
    notifications already queued keep their order. *)
Theorem queueNotification_first_in_first_out :
  forall (ops : list Op) (n : Notification),
    exists before after,
      notificationQueue (run ops) = (before ++ after)%list
      /\ notificationQueue (queueNotification n (run ops))
         = (before ++ n :: after)%list
      /\ Forall (fun m => Spec.deliveryOrder m n) before
      /\ Forall (fun m => Spec.deliveryOrder n m /\ ~ Spec.deliveryOrder m n)
                after.
Proof.
  intros ops n.
  destruct (jsSort_push_sorted compareNotifications
              compareNotifications_trans
              (notificationQueue (run ops)) n
              (queueSorted_cmpLe _ (run_sorted ops)))
    as [before [after [El [Es [Hb Ha]]]]].
  exists before, after. split; [exact El|]. split; [exact Es|]. split.
  - eapply Forall_impl; [|exact Hb].
    intros m Hm. apply compareNotifications_deliveryOrder. exact Hm.
  - eapply Forall_impl; [|exact Ha].
    intros m Hm. split.
    + apply compareNotifications_deliveryOrder.
      apply compareNotifications_total. exact Hm.
    + intros Hd. apply compareNotifications_deliveryOrder in Hd.
      unfold cmpLe in Hd. cbv beta in Hm. lia.
Qed.

(** A notification that is not due leaves the pending ones as they are. *)
Lemma queueNotification_not_due (now : Z) (n : Notification) (s : Service) :
  Spec.queueSorted s -> (now < triggerTime n)%Z ->
  getPendingNotifications now (queueNotification n s)
  = getPendingNotifications now s.
Proof.
  intros Hs Hn.
  destruct (jsSort_push_sorted compareNotifications
              compareNotifications_trans
              (notificationQueue s) n (queueSorted_cmpLe _ Hs))
    as [before [after [El [Es _]]]].
  unfold getPendingNotifications, queueNotification, sortNotificationQueue.
  cbn [notificationQueue setQueue]. rewrite Es, El, !filter_app.
  cbn [filter]. apply Z.leb_gt in Hn. rewrite Hn. reflexivity.
Qed.

(** X12. What [generateNotifications] and [updateUserProfile] enqueue at
    time [now] is not due before [now] + 15 minutes: in a state the store
    has reached, the pending notifications at any earlier time [t] are the
    same, in the same order, after the call as before. *)
Theorem generated_notifications_not_due_for_15_minutes :
  forall (ops : list Op) (now t : Z) (i : Insights) (d : ConversationData),
    (t < now + 15 * 60 * 1000)%Z ->
    getPendingNotifications t (generateNotifications now i (run ops))
    = getPendingNotifications t (run ops)
    /\ getPendingNotifications t (updateUserProfile now d (run ops))
       = getPendingNotifications t (run ops).
Proof.
  intros ops now t i d Ht.
  assert (Hgen : forall i s,
             Spec.queueSorted s ->
             getPendingNotifications t (generateNotifications now i s)
             = getPendingNotifications t s).
  { clear i. intros i s Hs. unfold generateNotifications.
    set (s1 := match actionItems i with Some _ => _ | None => _ end).
    assert (H1 : Spec.queueSorted s1
                 /\ getPendingNotifications t s1
                    = getPendingNotifications t s).
    { subst s1. destruct (actionItems i) as [items|]; [|split; trivial].
      destruct (0 <? List.length items)%nat; [|split; trivial].
      revert s Hs. induction items as [|item items IH]; intros s Hs;
        cbn [fold_left]; [split; trivial|].
      destruct (IH (queueNotification (actionReminder now item) s)
                   (queueNotification_sorted _ _)) as [Hs' Hp'].
      split; [exact Hs'|]. rewrite Hp'.
      apply queueNotification_not_due; [exact Hs|].
      cbn [triggerTime actionReminder].
      unfold calculateOptimalTriggerTime. lia. }
    destruct H1 as [Hs1 Hp1].
    destruct (sentiment i) as [sent|]; [|exact Hp1].
    destruct (scoreBelow sent); [|exact Hp1].
    rewrite <- Hp1. apply queueNotification_not_due; [exact Hs1|].
    cbn [triggerTime encouragement]. lia. }
  split.
  - apply Hgen, run_sorted.
  - unfold updateUserProfile. cbv zeta.
    rewrite Hgen; [reflexivity|].
    unfold Spec.queueSorted. cbn [notificationQueue]. apply run_sorted.
Qed.

(** An instance of X12: a low sentiment score reported at time 0 leaves
    nothing pending ten minutes later. *)
Lemma generated_notifications_not_due_for_15_minutes_witness :
  getPendingNotifications 600000
    (generateNotifications 0
       (mkInsights []
          (Some (MentorUtils.mkSentiment (JsNumber.number 0.2)
                                         "very negative"))
          (Some ["call Bob"]) [])
       (run []))
  = getPendingNotifications 600000 (run []).
Proof.
  apply (proj1 (generated_notifications_not_due_for_15_minutes
                  [] 0 600000
                  (mkInsights []
                     (Some (MentorUtils.mkSentiment (JsNumber.number 0.2)
                                                    "very negative"))
                     (Some ["call Bob"]) [])
                  (mkConversationData "" [] None)
                  ltac:(lia))).
Defined.

(** X13. What is pending at some time is pending at every later time:
    the pending list at [now] is the pending list at [later] without the
    notifications that only become due after [now], in the same order. *)
Theorem getPendingNotifications_monotone_in_time :
  forall (now later : Z) (s : Service),
    (now <= later)%Z ->
    getPendingNotifications now s
    = filter (fun n => (triggerTime n <=? now)%Z)
             (getPendingNotifications later s)
    /\ (forall n, In n (getPendingNotifications now s) ->
                  In n (getPendingNotifications later s)).
Proof.
  intros now later s Hle. unfold getPendingNotifications. split.
  - induction (notificationQueue s) as [|n q IH]; simpl; [reflexivity|].
    destruct (triggerTime n <=? now)%Z eqn:E1.
    + assert (E2 : (triggerTime n <=? later)%Z = true)
        by (apply Z.leb_le; apply Z.leb_le in E1; lia).
      rewrite E2. simpl. rewrite E1, IH. reflexivity.
    + destruct (triggerTime n <=? later)%Z; simpl; [rewrite E1|]; exact IH.
  - intros n Hn. apply filter_In in Hn. apply filter_In.
    split; [apply Hn|]. destruct Hn as [_ Hn].
    apply Z.leb_le. apply Z.leb_le in Hn. lia.
Qed.

(** An instance of X13: due at minute 5, asked at minutes 5 and 30. *)
Lemma getPendingNotifications_monotone_in_time_witness :
  getPendingNotifications 300000
    (run [OpQueueNotification (mkNotification (Some "a") "t" "A" "" medium 300000);
          OpQueueNotification (mkNotification (Some "b") "t" "B" "" high 900000)])
  = filter (fun n => (triggerTime n <=? 300000)%Z)
      (getPendingNotifications 1800000
         (run [OpQueueNotification
                 (mkNotification (Some "a") "t" "A" "" medium 300000);
               OpQueueNotification
                 (mkNotification (Some "b") "t" "B" "" high 900000)])).
Proof.
  apply (proj1 (getPendingNotifications_monotone_in_time
                  300000 1800000 _ ltac:(lia))).
Defined.

Lemma markNotificationsAsSent_queue (ids : list (option string)) (s : Service) :
  notificationQueue (markNotificationsAsSent ids s)
  = filter (fun n => negb (idsInclude ids (id n))) (notificationQueue s).
Proof. reflexivity. Qed.

(** Marking the ids of everything pending leaves nothing pending. *)
Lemma nothing_pending_after_marking (now : Z) (ids : list (option string))
      (s : Service) :
  (forall n, In n (getPendingNotifications now s) -> In (id n) ids) ->
  getPendingNotifications now (markNotificationsAsSent ids s) = [].
Proof.
  intros Hids.
  destruct (getPendingNotifications now (markNotificationsAsSent ids s))
    as [|n rest] eqn:E; [reflexivity|].
  exfalso.
  assert (Hn : In n (getPendingNotifications now
                       (markNotificationsAsSent ids s)))
    by (rewrite E; left; reflexivity).
  unfold getPendingNotifications in Hn.
  rewrite markNotificationsAsSent_queue in Hn.
  apply filter_In in Hn. destruct Hn as [Hq Hdue].
  apply filter_In in Hq. destruct Hq as [Hq Hid].
  apply negb_true_iff, idsInclude_false in Hid. apply Hid, Hids.
  apply filter_In. split; assumption.
Qed.

(** X14. Acknowledging everything that is pending leaves nothing pending:
    after [markNotificationsAsSent] with the ids of the notifications
    pending at [now], no notification is pending at [now]; the
    notifications that are not yet due stay queued unless they carry the
    id of a pending one. *)
Theorem markNotificationsAsSent_pending_clears_pending :
  forall (now : Z) (s : Service),
    let s' := markNotificationsAsSent
                (map id (getPendingNotifications now s)) s in
    getPendingNotifications now s' = []
    /\ (forall n,
          In n (notificationQueue s') <->
          In n (notificationQueue s)
          /\ (now < triggerTime n)%Z
          /\ ~ In (id n) (map id (getPendingNotifications now s))).
Proof.
  intros now s s'. split.
  - apply nothing_pending_after_marking. intros n Hn. apply in_map, Hn.
  - intros n. unfold s'. rewrite markNotificationsAsSent_queue, filter_In,
      negb_true_iff, idsInclude_false. split.
    + intros [Hq Hid]. split; [exact Hq|]. split; [|exact Hid].
      destruct (Z.ltb_spec now (triggerTime n)) as [Hlt | Hge];
        [exact Hlt|].
      exfalso. apply Hid, in_map. apply filter_In.
      split; [exact Hq | apply Z.leb_le, Hge].
    + intros [Hq [_ Hid]]. split; assumption.
Qed.

Lemma idsInclude_app (a b : list (option string)) (i : option string) :
  idsInclude (a ++ b) i = idsInclude a i || idsInclude b i.
Proof. unfold idsInclude. apply existsb_app. Qed.

(** X15. Marking in two steps is marking once with both lists of ids, in
    either order. *)
Theorem markNotificationsAsSent_composes :
  forall (a b : list (option string)) (s : Service),
    markNotificationsAsSent a (markNotificationsAsSent b s)
    = markNotificationsAsSent (a ++ b) s
    /\ markNotificationsAsSent a (markNotificationsAsSent b s)
       = markNotificationsAsSent b (markNotificationsAsSent a s).
Proof.
  assert (H : forall a b s,
             markNotificationsAsSent a (markNotificationsAsSent b s)
             = markNotificationsAsSent (a ++ b) s).
  { intros a b s. unfold markNotificationsAsSent, setQueue.
    cbn [userProfile conversationHistory notificationQueue]. f_equal.
    induction (notificationQueue s) as [|n q IH]; cbn [filter];
      [reflexivity|].
    rewrite idsInclude_app.
    destruct (idsInclude b (id n)); cbn [negb filter].
    - rewrite orb_true_r. cbn [negb]. exact IH.
    - rewrite orb_false_r.
      destruct (idsInclude a (id n)); cbn [negb]; [exact IH|].
      rewrite IH. reflexivity. }
  intros a b s. split; [apply H|].
  rewrite !H. unfold markNotificationsAsSent. f_equal.
  apply filter_ext. intros n.
  rewrite !idsInclude_app, orb_comm. reflexivity.
Qed.

(** X16. The history is append-only and records exactly the calls of
    [updateUserProfile]: after any operations it is the history from before
    followed by one entry per update, in order, with the time of the call,
    the conversation and its insights; no other operation touches it, and
    the profile is the insights of the last update. *)
Theorem conversationHistory_append_only :
  forall (ops : list Op) (s : Service),
    conversationHistory (fold_left step ops s)
    = (conversationHistory s
         ++ map (fun u => mkHistoryEntry (fst u) (snd u)
                                         (extractInsights (snd u)))
                (Props.updatesOf ops))%list
    /\ userProfile (fold_left step ops s)
       = match rev (Props.updatesOf ops) with
         | u :: _ => Some (extractInsights (snd u))
         | [] => userProfile s
         end.
Proof.
  assert (Hgen : forall now i s,
             conversationHistory (generateNotifications now i s)
             = conversationHistory s
             /\ userProfile (generateNotifications now i s) = userProfile s).
  { intros now i s. unfold generateNotifications.
    set (s1 := match actionItems i with Some _ => _ | None => _ end).
    assert (H1 : conversationHistory s1 = conversationHistory s
                 /\ userProfile s1 = userProfile s).
    { subst s1. destruct (actionItems i) as [items|]; [|split; reflexivity].
      destruct (0 <? List.length items)%nat; [|split; reflexivity].
      revert s. induction items as [|item items IH]; intros s;
        cbn [fold_left]; [split; reflexivity|].
      destruct (IH (queueNotification (actionReminder now item) s))
        as [Hh Hp]. rewrite Hh, Hp. split; reflexivity. }
    destruct (sentiment i) as [sent|]; [|exact H1].
    destruct (scoreBelow sent); [|exact H1].
    destruct H1 as [Hh Hp]. cbn [queueNotification sortNotificationQueue
      setQueue conversationHistory userProfile]. split; assumption. }
  intros ops. induction ops as [|op ops IH]; intros s.
  - simpl. rewrite app_nil_r. split; reflexivity.
  - cbn [fold_left]. destruct (IH (step s op)) as [Hh Hp].
    rewrite Hh, Hp. clear IH Hh Hp.
    destruct op as [now d | now i | n | ids];
      cbn [step Props.updatesOf flat_map app map fst snd rev].
    + unfold updateUserProfile. cbv zeta.
      destruct (Hgen now (extractInsights d)
                     (mkService (Some (extractInsights d))
                        (conversationHistory s
                           ++ [mkHistoryEntry now d (extractInsights d)])
                        (notificationQueue s))) as [Hh Hp].
      rewrite Hh, Hp. cbn [conversationHistory userProfile].
      rewrite <- app_assoc. split; [reflexivity|].
      fold (Props.updatesOf ops).
      destruct (rev (Props.updatesOf ops)) as [|u r]; reflexivity.
    + destruct (Hgen now i s) as [Hh Hp]. rewrite Hh, Hp.
      split; reflexivity.
    + split; reflexivity.
    + split; reflexivity.
Qed.

(** X17. [updateUserProfile] never enqueues an action reminder, whatever
    the conversation: the store's own [extractActionItems] finds none. It
    adds one notification at most, the encouragement, and only for a
    sentiment score below 0.3. *)
Theorem updateUserProfile_enqueues_at_most_encouragement :
  forall (now : Z) (d : ConversationData) (s : Service),
    exists added,
      Permutation (notificationQueue (updateUserProfile now d s))
                  (notificationQueue s ++ added)
      /\ (added = []
          \/ (added = [encouragement now (extractInsights d)]
              /\ exists sent,
                  dataSentiment d = Some sent
                  /\ (MentorUtils.score sent < JsNumber.number 0.3)%Q))
      /\ Forall (fun n => type n <> "action_reminder") added.
Proof.
  intros now d s. unfold updateUserProfile. cbv zeta.
  set (s1 := mkService _ _ _).
  pose proof (generateNotifications_perm now (extractInsights d) s1) as Hperm.
  change (notificationQueue s1) with (notificationQueue s) in Hperm.
  cbn [actionItems sentiment extractInsights extractActionItems map app]
    in Hperm.
  eexists. split; [exact Hperm|].
  destruct (dataSentiment d) as [sent|];
    [|split; [left; reflexivity | constructor]].
  destruct (scoreBelow sent) eqn:E;
    [|split; [left; reflexivity | constructor]].
  split.
  - right. split; [reflexivity|]. exists sent. split; [reflexivity|].
    apply scoreBelow_lt, E.
  - constructor; [discriminate | constructor].
Qed.

End StoreMore.

(** ** The scheduler, further *)

Section SchedulerMore.

Import NotificationService.

Section TickMore.

Variable Channel : Type.
Variable sendNotification :
  Channel -> MentorService.Notification -> Channel * bool.

Lemma attempts_pending (pending : list MentorService.Notification) :
  forall (channel : Channel),
    map fst (Spec.attempts Channel sendNotification pending channel) = pending.
Proof.
  induction pending as [|n rest IH]; intros channel; simpl; [reflexivity|].
  destruct (sendNotification channel n) as [channel' ok]. simpl.
  rewrite IH. reflexivity.
Qed.

Lemma attempts_all_resolved (pending : list MentorService.Notification) :
  (forall c n, snd (sendNotification c n) = true) ->
  forall (channel : Channel),
    Spec.successfulIds (Spec.attempts Channel sendNotification pending channel)
    = map MentorService.id pending.
Proof.
  intros Hok. unfold Spec.successfulIds.
  induction pending as [|n rest IH]; intros channel; simpl; [reflexivity|].
  specialize (Hok channel n).
  destruct (sendNotification channel n) as [channel' ok]. simpl in Hok.
  subst ok. simpl. rewrite IH. reflexivity.
Qed.

(** X18. With a channel on which every dispatch succeeds, a tick leaves
    nothing pending at its time, and a second tick at that time does
    nothing at all: no dispatch, no call of [markSent], the store
    unchanged. *)
Theorem tick_all_sent_then_idle :
  forall (now : Z) (ms : MentorService.Service) (channel : Channel),
    (forall c n, snd (sendNotification c n) = true) ->
    let first :=
      checkAndSendNotifications Channel sendNotification now ms channel in
    MentorService.getPendingNotifications now (fst (fst first)) = []
    /\ checkAndSendNotifications Channel sendNotification now
         (fst (fst first)) (snd (fst first))
       = (fst (fst first), snd (fst first), []).
Proof.
  intros now ms channel Hok first.
  assert (Hnone :
            MentorService.getPendingNotifications now (fst (fst first)) = []).
  { destruct (checkAndSendNotifications_log Channel sendNotification
                                              now ms channel) as [Hnil Hcons].
    fold first in Hnil, Hcons.
    destruct (MentorService.getPendingNotifications now ms) as [|n rest] eqn:E.
    - rewrite Hnil by reflexivity. exact E.
    - destruct Hcons as [_ Hms]; [discriminate|]. rewrite Hms.
      rewrite attempts_all_resolved by exact Hok.
      apply nothing_pending_after_marking.
      intros m Hm. apply in_map. rewrite <- E. exact Hm. }
  split; [exact Hnone|].
  apply (checkAndSendNotifications_log Channel sendNotification now
                                       (fst (fst first)) (snd (fst first))).
  exact Hnone.
Qed.

(** X19. A tick dispatches only notifications that are queued and due; it
    never adds to the queue and never touches the profile or the history;
    and a queued notification that is not yet due stays queued unless it
    carries the id of a notification sent in this tick. *)
Theorem tick_touches_only_due_notifications :
  forall (now : Z) (ms : MentorService.Service) (channel : Channel),
    let result :=
      checkAndSendNotifications Channel sendNotification now ms channel in
    let outcomes :=
      Spec.attempts Channel sendNotification
                    (MentorService.getPendingNotifications now ms) channel in
    (forall n ok,
        In (n, ok) (Spec.dispatchesOf (snd result)) ->
        In n (MentorService.notificationQueue ms)
        /\ (MentorService.triggerTime n <= now)%Z)
    /\ (forall n,
          In n (MentorService.notificationQueue (fst (fst result))) ->
          In n (MentorService.notificationQueue ms))
    /\ MentorService.userProfile (fst (fst result))
       = MentorService.userProfile ms
    /\ MentorService.conversationHistory (fst (fst result))
       = MentorService.conversationHistory ms
    /\ (forall n,
          In n (MentorService.notificationQueue ms) ->
          (now < MentorService.triggerTime n)%Z ->
          ~ In (MentorService.id n) (Spec.successfulIds outcomes) ->
          In n (MentorService.notificationQueue (fst (fst result)))).
Proof.
  intros now ms channel result outcomes.
  destruct (checkAndSendNotifications_log Channel sendNotification
                                          now ms channel) as [Hnil Hcons].
  fold result outcomes in Hnil, Hcons.
  destruct (MentorService.getPendingNotifications now ms) as [|m rest] eqn:E.
  - rewrite Hnil by reflexivity. cbn [fst snd Spec.dispatchesOf flat_map].
    repeat split; intros;
      solve [ assumption | reflexivity
            | match goal with H : In _ [] |- _ => destruct H end ].
  - destruct Hcons as [Hlog Hms]; [discriminate|]. rewrite Hlog, Hms.
    split; [|split; [|split; [|split]]]; try reflexivity.
    + intros n ok Hin. unfold Spec.dispatchesOf in Hin.
      rewrite flat_map_app in Hin. cbn [flat_map app] in Hin.
      rewrite app_nil_r in Hin.
      fold (Spec.dispatchesOf (map Spec.attemptEvent outcomes)) in Hin.
      rewrite (proj1 (dispatchesOf_events outcomes)) in Hin.
      assert (Hn : In n (m :: rest)).
      { rewrite <- (attempts_pending (m :: rest) channel).
        apply in_map_iff. exists (n, ok). split; [reflexivity | exact Hin]. }
      rewrite <- E in Hn. apply filter_In in Hn.
      split; [apply Hn | apply Z.leb_le, Hn].
    + intros n Hn. rewrite markNotificationsAsSent_queue in Hn.
      apply filter_In in Hn. apply Hn.
    + intros n Hq _ Hid. rewrite markNotificationsAsSent_queue.
      apply filter_In. split; [exact Hq|].
      apply negb_true_iff, idsInclude_false, Hid.
Qed.

End TickMore.

(** An instance of X18: one due notification on a channel that always
    succeeds. *)
Lemma tick_all_sent_then_idle_witness :
  MentorService.getPendingNotifications 0
    (fst (fst (checkAndSendNotifications unit (fun c _ => (c, true)) 0
                 (MentorService.run
                    [MentorService.OpQueueNotification
                       (MentorService.mkNotification
                          (Some "n1") "t" "A" "" high 0)])
                 tt)))
  = [].
Proof.
  apply (proj1 (tick_all_sent_then_idle unit (fun c _ => (c, true)) 0
                  (MentorService.run
                     [MentorService.OpQueueNotification
                        (MentorService.mkNotification
                           (Some "n1") "t" "A" "" high 0)])
                  tt (fun _ _ => eq_refl))).
Defined.

(** X20. From a fresh scheduler, after any calls of [start] and [stop]:
    the registered intervals are pairwise distinct; while the scheduler is
    running its handle is one of them, so that [stop] cancels a live
    interval, exactly one; a stopped scheduler is left as it is by [stop];
    [stop] always leaves it stopped; and the mentor service is never
    touched. *)
Theorem start_stop_handle_is_live :
  forall (calls : list bool) (ms : MentorService.Service),
    let s := Props.startStop calls (constructor ms) in
    NoDup (activeIntervals (timers s))
    /\ (forall h, notificationInterval s = Some h ->
                  In h (activeIntervals (timers s))
                  /\ S (List.length (activeIntervals (timers (stop s))))
                     = List.length (activeIntervals (timers s)))
    /\ (notificationInterval s = None -> stop s = s)
    /\ isRunning (stop s) = false
    /\ stop (stop s) = stop s
    /\ mentorService s = ms.
Proof.
  intros calls ms.
  assert (Hinv : forall calls s,
             NoDup (activeIntervals (timers s)) ->
             Forall (fun h => (h < nextHandle (timers s))%positive)
                    (activeIntervals (timers s)) ->
             (forall h, notificationInterval s = Some h ->
                        In h (activeIntervals (timers s))) ->
             let s' := Props.startStop calls s in
             NoDup (activeIntervals (timers s'))
             /\ Forall (fun h => (h < nextHandle (timers s'))%positive)
                       (activeIntervals (timers s'))
             /\ (forall h, notificationInterval s' = Some h ->
                           In h (activeIntervals (timers s')))
             /\ mentorService s' = mentorService s).
  { clear. induction calls as [|call calls IH]; intros s Hnd Hlt Hh;
      cbv zeta; cbn [Props.startStop fold_left].
    - repeat split; assumption.
    - fold (Props.startStop calls (if call then start s else stop s)).
      destruct call.
      + destruct (IH (start s)) as [H1 [H2 [H3 H4]]];
          [| | |repeat split; assumption].
        * cbn. apply NoDup_app; [exact Hnd | repeat constructor; intros [] |].
          intros x Hx [Hy | []]. subst x. rewrite Forall_forall in Hlt.
          specialize (Hlt _ Hx). lia.
        * cbn. apply Forall_app. split.
          -- eapply Forall_impl; [|exact Hlt]. intros h Hlt'. cbv beta in *. lia.
          -- constructor; [lia | constructor].
        * cbn. intros h E. injection E as <-. apply in_or_app. right.
          left. reflexivity.
      + unfold stop. destruct (notificationInterval s) as [h|] eqn:En.
        * destruct (IH (mkService (mentorService s) None
                                  (clearInterval h (timers s))))
            as [H1 [H2 [H3 H4]]]; [| | |repeat split; assumption].
          -- cbn. apply NoDup_filter, Hnd.
          -- cbn. apply Forall_forall. intros x Hx. apply filter_In in Hx.
             rewrite Forall_forall in Hlt. apply Hlt, Hx.
          -- cbn. discriminate.
        * apply IH; [exact Hnd | exact Hlt |].
          intros h E. rewrite En in E. discriminate E. }
  destruct (Hinv calls (constructor ms)) as [Hnd [Hlt [Hh Hms]]];
    [constructor | constructor | discriminate|].
  set (s := Props.startStop calls (constructor ms)) in *.
  cbv zeta. split; [exact Hnd|]. split; [|split; [|split; [|split]]].
  - intros h En. split; [apply Hh, En|].
    unfold stop. rewrite En. cbn.
    specialize (Hh h En). clear - Hnd Hh.
    induction (activeIntervals (timers s)) as [|x l IH]; [destruct Hh|].
    inversion Hnd as [|? ? Hx Hl]; subst. cbn [filter].
    destruct (Pos.eqb_spec x h) as [-> | Hne]; cbn [negb].
    + f_equal. clear - Hx. induction l as [|y l IH]; [reflexivity|].
      cbn [filter]. destruct (Pos.eqb_spec y h) as [-> | Hne]; cbn [negb].
      * exfalso. apply Hx. left. reflexivity.
      * cbn [List.length]. f_equal. apply IH. intros H. apply Hx. right.
        exact H.
    + cbn [List.length]. f_equal. apply IH; [exact Hl|].
      destruct Hh as [E | Hh]; [congruence | exact Hh].
  - intros En. unfold stop. rewrite En. reflexivity.
  - unfold stop, isRunning. destruct (notificationInterval s) eqn:En;
      [reflexivity | rewrite En; reflexivity].
  - unfold stop. destruct (notificationInterval s) eqn:En;
      [reflexivity | rewrite En; reflexivity].
  - exact Hms.
Qed.

End SchedulerMore.

(** ** The Omi service *)

Section OmiFacts.

Import OmiService.

Lemma filter_all {A : Type} (f : A -> bool) (l : list A) :
  (forall x, In x l -> f x = true) -> filter f l = l.
Proof.
  induction l as [|x l IH]; intros H; simpl; [reflexivity|].
  rewrite (H x (or_introl eq_refl)). f_equal. apply IH.
  intros y Hy. apply H. right. exact Hy.
Qed.

(** What [findIndex] finds: the first listener with the id. *)
Lemma findIndex_split (id : string) (ls : list Listener) :
  match findIndex id ls with
  | Some index =>
      exists before l after,
        ls = (before ++ l :: after)%list
        /\ List.length before = index
        /\ listenerId l = id
        /\ Forall (fun l' => listenerId l' <> id) before
  | None => Forall (fun l' => listenerId l' <> id) ls
  end.
Proof.
  induction ls as [|l ls IH]; simpl; [constructor|].
  destruct (String.eqb (listenerId l) id) eqn:E.
  - apply String.eqb_eq in E. exists [], l, ls.
    repeat split; [exact E | constructor].
  - apply String.eqb_neq in E. destruct (findIndex id ls) as [index|].
    + destruct IH as [before [l' [after [-> [Hlen [Hid Hb]]]]]].
      exists (l :: before), l', after.
      repeat split; [simpl; f_equal; exact Hlen | exact Hid|].
      constructor; assumption.
    + constructor; assumption.
Qed.

(** The two outcomes of [removeListener]. *)
Lemma removeListener_cases :
  forall (id : string) (s : Service),
    (Forall (fun l => listenerId l <> id) (listeners s)
     /\ removeListener id s = s)
    \/ (exists before l after,
           listeners s = (before ++ l :: after)%list
           /\ listenerId l = id
           /\ Forall (fun l' => listenerId l' <> id) before
           /\ listeners (removeListener id s) = (before ++ after)%list
           /\ timers (removeListener id s)
              = NotificationService.clearInterval (intervalId l) (timers s)
           /\ isConnected (removeListener id s) = isConnected s
           /\ deviceId (removeListener id s) = deviceId s).
Proof.
  intros id s. unfold removeListener.
  pose proof (findIndex_split id (listeners s)) as H.
  destruct (findIndex id (listeners s)) as [index|].
  - right. destruct H as [before [l [after [E [Hlen [Hid Hb]]]]]].
    exists before, l, after. rewrite E.
    assert (Hnth : nth_error (before ++ l :: after) index = Some l).
    { rewrite nth_error_app2 by lia.
      replace (index - List.length before)%nat with 0%nat by lia.
      reflexivity. }
    rewrite Hnth. cbn [listeners timers isConnected deviceId].
    repeat split; try assumption.
    unfold splice1. subst index. clear.
    induction before as [|b before IH]; [reflexivity|].
    cbn [List.length firstn skipn app] in *. rewrite IH. reflexivity.
  - left. split; [exact H | reflexivity].
Qed.

(** X21. [removeListener] removes one listener at most, the first that
    carries the id, and clears the interval of that listener; the other
    listeners keep their order. With an id that no listener carries it
    changes nothing. *)
Theorem removeListener_removes_first_match :
  forall (id : string) (s : Service),
    (Forall (fun l => listenerId l <> id) (listeners s)
     /\ removeListener id s = s)
    \/ (exists before l after,
           listeners s = (before ++ l :: after)%list
           /\ listenerId l = id
           /\ Forall (fun l' => listenerId l' <> id) before
           /\ listeners (removeListener id s) = (before ++ after)%list
           /\ timers (removeListener id s)
              = NotificationService.clearInterval (intervalId l) (timers s)
           /\ isConnected (removeListener id s) = isConnected s
           /\ deviceId (removeListener id s) = deviceId s).
Proof.
  intros id s.
  destruct (removeListener_cases id s) as [Hnone | Hsome];
    [left | right]; assumption.
Qed.

(** The state the service keeps about its intervals. *)
Lemma run_intervals (ops : list Op) :
  NotificationService.activeIntervals (timers (run ops))
  = map intervalId (listeners (run ops))
  /\ NoDup (map intervalId (listeners (run ops)))
  /\ Forall (fun h => (h < NotificationService.nextHandle
                             (timers (run ops)))%positive)
            (map intervalId (listeners (run ops)))
  /\ (isConnected (run ops) = true <-> deviceId (run ops) <> None).
Proof.
  unfold run.
  assert (Hgen : forall ops s,
             NotificationService.activeIntervals (timers s)
             = map intervalId (listeners s) ->
             NoDup (map intervalId (listeners s)) ->
             Forall (fun h => (h < NotificationService.nextHandle
                                      (timers s))%positive)
                    (map intervalId (listeners s)) ->
             (isConnected s = true <-> deviceId s <> None) ->
             let s' := fold_left step ops s in
             NotificationService.activeIntervals (timers s')
             = map intervalId (listeners s')
             /\ NoDup (map intervalId (listeners s'))
             /\ Forall (fun h => (h < NotificationService.nextHandle
                                        (timers s'))%positive)
                       (map intervalId (listeners s'))
             /\ (isConnected s' = true <-> deviceId s' <> None)).
  { clear. induction ops as [|op ops IH]; intros s Ha Hnd Hlt Hc;
      cbv zeta; cbn [fold_left]; [repeat split; try assumption; apply Hc|].
    destruct op as [device | | now | id]; cbn [step]; apply IH.
    - exact Ha.
    - exact Hnd.
    - exact Hlt.
    - cbn. split; [discriminate | reflexivity].
    - unfold disconnect. destruct (isConnected s); exact Ha.
    - unfold disconnect. destruct (isConnected s); exact Hnd.
    - unfold disconnect. destruct (isConnected s); exact Hlt.
    - unfold disconnect. destruct (isConnected s) eqn:E; cbn [fst negb].
      + cbn. split; [discriminate | intros H; exfalso; apply H; reflexivity].
      + rewrite ?E. exact Hc.
    - unfold subscribeToConversations. destruct (isConnected s);
        cbn [negb fst]; [|exact Ha].
      cbn. rewrite map_app, Ha. reflexivity.
    - unfold subscribeToConversations. destruct (isConnected s);
        cbn [negb fst]; [|exact Hnd].
      cbn. rewrite map_app.
      apply NoDup_app; [exact Hnd | repeat constructor; intros [] |].
      intros x Hx [Hy | []]. subst x. rewrite Forall_forall in Hlt.
      specialize (Hlt _ Hx). cbn [intervalId] in Hlt. lia.
    - unfold subscribeToConversations. destruct (isConnected s);
        cbn [negb fst]; [|exact Hlt].
      cbn. rewrite map_app. apply Forall_app. split.
      + eapply Forall_impl; [|exact Hlt]. intros h Hh. cbv beta in *. lia.
      + constructor; [cbn [intervalId]; lia | constructor].
    - unfold subscribeToConversations. destruct (isConnected s) eqn:E;
        cbn [negb fst]; [|rewrite ?E; exact Hc].
      cbn. rewrite ?E. exact Hc.
    - destruct (removeListener_cases id s)
        as [[_ ->] | [before [l [after [El [_ [_ [Er [Et _]]]]]]]]];
        [exact Ha|].
      rewrite Er, Et. cbn [NotificationService.clearInterval
                             NotificationService.activeIntervals].
      rewrite Ha, El. rewrite El in Hnd. rewrite !map_app in *.
      cbn [map] in *. rewrite filter_app. cbn [filter].
      rewrite Pos.eqb_refl. cbn [negb].
      apply NoDup_remove_2 in Hnd.
      f_equal; apply filter_all; intros x Hx;
        apply negb_true_iff, Pos.eqb_neq; intros ->; apply Hnd;
        apply in_or_app; [left | right]; exact Hx.
    - destruct (removeListener_cases id s)
        as [[_ ->] | [before [l [after [El [_ [_ [Er _]]]]]]]];
        [exact Hnd|].
      rewrite Er. rewrite El, map_app in Hnd. cbn [map] in Hnd.
      rewrite map_app. eapply NoDup_remove_1, Hnd.
    - destruct (removeListener_cases id s)
        as [[_ ->] | [before [l [after [El [_ [_ [Er [Et _]]]]]]]]];
        [exact Hlt|].
      rewrite Er, Et. cbn. rewrite El, map_app in Hlt. cbn [map] in Hlt.
      rewrite map_app. apply Forall_app in Hlt. destruct Hlt as [H1 H2].
      apply Forall_app. split; [exact H1 | exact (Forall_inv_tail H2)].
    - destruct (removeListener_cases id s)
        as [[_ ->] | [before [l [after [_ [_ [_ [_ [_ [Ec Ed]]]]]]]]]];
        [exact Hc|].
      rewrite Ec, Ed. exact Hc. }
  apply Hgen; cbn.
  - reflexivity.
  - constructor.
  - constructor.
  - split; [discriminate | intros H; exfalso; apply H; reflexivity].
Qed.

(** X22. In every state the service reaches, the intervals registered
    with the host are exactly the intervals of the listeners, one each, in
    the order of the listeners: no listener is without its interval and no
    interval outlives its listener. A device id is stored exactly while the
    service counts as connected. *)
Theorem listeners_own_their_intervals :
  forall ops : list Op,
    NotificationService.activeIntervals (timers (run ops))
    = map intervalId (listeners (run ops))
    /\ NoDup (map intervalId (listeners (run ops)))
    /\ List.length (NotificationService.activeIntervals (timers (run ops)))
       = List.length (listeners (run ops))
    /\ (isDeviceConnected (run ops) = true <->
        getConnectedDeviceId (run ops) <> None).
Proof.
  intros ops. destruct (run_intervals ops) as [Ha [Hnd [_ Hc]]].
  split; [exact Ha|]. split; [exact Hnd|]. split; [|exact Hc].
  rewrite Ha. apply length_map.
Qed.

(** X23. Subscribing and then calling [remove] on the subscription is a
    round trip: when a device is connected and no listener carries the id
    of the new one (the clock reading in decimal), the subscription adds
    one listener with a fresh interval, and its [remove] gives back the
    listeners and the registered intervals from before. *)
Theorem subscribe_then_remove_round_trip :
  forall (ops : list Op) (now : Z),
    isConnected (run ops) = true ->
    Forall (fun l => listenerId l <> MentorUtils.numberToString now)
           (listeners (run ops)) ->
    let subscribed := subscribeToConversations now (run ops) in
    snd subscribed = Some (MentorUtils.numberToString now)
    /\ listeners (fst subscribed)
       = (listeners (run ops)
            ++ [mkListener (MentorUtils.numberToString now)
                           (NotificationService.nextHandle
                              (timers (run ops)))])%list
    /\ listeners (remove (snd subscribed) (fst subscribed))
       = listeners (run ops)
    /\ NotificationService.activeIntervals
         (timers (remove (snd subscribed) (fst subscribed)))
       = NotificationService.activeIntervals (timers (run ops)).
Proof.
  intros ops now Hc Hfresh.
  destruct (run_intervals ops) as [Ha [_ [Hlt _]]].
  set (s := run ops) in *. cbv zeta.
  unfold subscribeToConversations. rewrite Hc. cbn [negb fst snd].
  cbn [NotificationService.setInterval]. cbn [fst snd listeners remove].
  split; [reflexivity|]. split; [reflexivity|].
  set (id := MentorUtils.numberToString now) in *.
  set (next := NotificationService.nextHandle (timers s)) in *.
  set (s1 := mkService _ _ _ _).
  destruct (removeListener_cases id s1)
    as [[Hnone _] | [before [l [after [El [Hid [Hb [Er [Et _]]]]]]]]].
  - exfalso. unfold s1 in Hnone. cbn [listeners] in Hnone.
    apply Forall_app in Hnone. destruct Hnone as [_ Hnone].
    apply Forall_inv in Hnone. apply Hnone. reflexivity.
  - unfold s1 in El. cbn [listeners] in El.
    assert (Hsplit : before = listeners s /\ l = mkListener id next
                     /\ after = []).
    { clear - El Hid Hb Hfresh.
      revert before El Hb. induction Hfresh as [|x ls Hx Hls IH];
        intros before El Hb.
      - destruct before as [|b before]; simpl in El.
        + injection El as <- <-. repeat split.
        + injection El as _ El. destruct before; discriminate El.
      - destruct before as [|b before]; simpl in El.
        + injection El as <- _. exfalso. apply Hx, Hid.
        + injection El as <- El. inversion Hb; subst.
          destruct (IH before El) as [-> [-> ->]]; [assumption|].
          repeat split. }
    destruct Hsplit as [-> [-> ->]].
    rewrite Er, Et, app_nil_r. split; [reflexivity|].
    unfold s1. cbn [timers NotificationService.clearInterval
                    NotificationService.activeIntervals intervalId].
    rewrite filter_app. cbn [filter]. rewrite Pos.eqb_refl. cbn [negb].
    rewrite app_nil_r. apply filter_all. intros x Hx.
    apply negb_true_iff, Pos.eqb_neq. intros ->.
    rewrite Ha in Hx. rewrite Forall_forall in Hlt.
    specialize (Hlt _ Hx). unfold next in Hlt. lia.
Qed.

(** An instance of X23: the first subscription after connecting. *)
Lemma subscribe_then_remove_round_trip_witness :
  listeners
    (remove (snd (subscribeToConversations 1730000000000
                    (run [OpConnectToDevice "omi-device-001"])))
            (fst (subscribeToConversations 1730000000000
                    (run [OpConnectToDevice "omi-device-001"]))))
  = listeners (run [OpConnectToDevice "omi-device-001"]).
Proof.
  apply (proj1 (proj2 (proj2
           (subscribe_then_remove_round_trip
              [OpConnectToDevice "omi-device-001"] 1730000000000
              eq_refl (Forall_nil _))))).
Defined.

(** X24. [disconnect] always answers [true] and leaves the service
    disconnected; it is idempotent; it never removes a listener or clears
    an interval, so subscriptions made before keep firing; and while the
    service is disconnected a subscription registers nothing: the state is
    unchanged and the [remove] of the subscription does nothing. *)
Theorem disconnect_keeps_subscriptions :
  forall (s : Service) (now : Z),
    let s' := fst (disconnect s) in
    snd (disconnect s) = true
    /\ isConnected s' = false
    /\ (isConnected s = true -> deviceId s' = None)
    /\ listeners s' = listeners s
    /\ timers s' = timers s
    /\ disconnect s' = (s', true)
    /\ subscribeToConversations now s' = (s', None)
    /\ remove (snd (subscribeToConversations now s')) s' = s'.
Proof.
  intros s now. unfold disconnect.
  destruct (isConnected s) eqn:E; cbn [negb fst snd];
    unfold subscribeToConversations, disconnect;
    cbn [isConnected]; rewrite ?E; cbn [negb fst snd remove];
    repeat split; solve [reflexivity | discriminate | assumption].
Qed.

End OmiFacts.
